(** * Verification of the tutorial notebooks

    The repository holds three notebooks:
    - the attention walkthrough (dot-product scoring, softmax, weighted
      sum into a context vector), written with NumPy and PyTorch;
    - "Part 3 - Training Neural Networks": losses, autograd, the training
      loop;
    - "Part 6 - Saving and Loading Models": state dicts and checkpoints.

    Arrays hold real numbers: the development is about exact arithmetic,
    the rounding, overflow and underflow of [float32]/[float64] are out
    of its scope, and what is proved of [softmax] is proved of the
    real-valued function.  A NumPy array and a PyTorch tensor hold the
    same kind of data, and the functions of one library act on the
    values only; where a value of one library is handed to the other
    ([tensor * ndarray], [np.sum] of a tensor) the value carries the
    library it belongs to ([array_like]). *)

From Stdlib Require Import String Ascii DecimalString DecimalNat.
From Stdlib Require Import Reals Lra Lia Bool Arith List.
From Stdlib Require Import FunctionalExtensionality.
Import ListNotations.

(** ** Python exceptions and results *)

Inductive error : Type :=
| ValueError          (* numpy: shapes not aligned *)
| IndexError          (* torch: dimension out of range *)
| AxisError           (* numpy: axis out of bounds *)
| RuntimeError        (* torch: size mismatch *)
| KeyError
| FileNotFoundError
| TypeError.          (* torch: invalid combination of arguments *)

Inductive result (A : Type) : Type :=
| Ok (a : A)
| Raise (e : error).

Arguments Ok {A} a.
Arguments Raise {A} e.

Definition bind {A B : Type} (r : result A) (k : A -> result B) : result B :=
  match r with
  | Ok a => k a
  | Raise e => Raise e
  end.

Notation "x <- c ;; k" := (bind c (fun x => k))
  (at level 61, c at next level, right associativity).

Definition raises {A : Type} (r : result A) : Prop :=
  exists e, r = Raise e.

Definition returns {A : Type} (r : result A) : Prop :=
  exists a, r = Ok a.

(** ** Arrays of rank 0, 1 and 2 *)

Module Arrays.

Open Scope R_scope.

(** A rank-2 array is the list of its rows; NumPy and PyTorch arrays are
    rectangular, which [has_shape] states.  An array without rows is
    represented with zero columns. *)

Inductive ndarray : Type :=
| Scalar (x : R)
| Array1 (v : list R)
| Array2 (m : list (list R)).

Definition nrows (m : list (list R)) : nat := length m.

Definition ncols (m : list (list R)) : nat :=
  match m with
  | [] => 0
  | r :: _ => length r
  end.

Definition has_shape (m : list (list R)) (r c : nat) : Prop :=
  length m = r /\ Forall (fun row => length row = c) m.

Definition shape (a : ndarray) : list nat :=
  match a with
  | Scalar _ => []
  | Array1 v => [length v]
  | Array2 m => [nrows m; ncols m]
  end.

Definition ndim (a : ndarray) : nat := length (shape a).

Definition sum_list (l : list R) : R := fold_right Rplus 0 l.

(** [sum_upto n f] is f 0 + ... + f (n-1). *)
Definition sum_upto (n : nat) (f : nat -> R) : R :=
  sum_list (map f (seq 0 n)).

Definition dot (u v : list R) : R :=
  sum_list (map (fun p => fst p * snd p) (combine u v)).

Definition get2 (m : list (list R)) (i j : nat) : R :=
  nth j (nth i m []) 0.

Definition column (j : nat) (m : list (list R)) : list R :=
  map (fun row => nth j row 0) m.

(** [a.T] and [np.transpose]: a rank-2 array is transposed, an array of
    lower rank is returned as it is. *)
Definition transpose (m : list (list R)) : list (list R) :=
  map (fun j => column j m) (seq 0 (ncols m)).

Definition T (a : ndarray) : ndarray :=
  match a with
  | Array2 m => Array2 (transpose m)
  | _ => a
  end.

(** [v[:, None]] on a rank-1 array: the column with the entries of v. *)
Definition newaxis_col (v : list R) : ndarray :=
  Array2 (map (fun x => [x]) v).

(** [a @ b] ([np.matmul]).  The inner dimensions must agree; a rank-1
    operand is a row on the left and a column on the right; scalars are
    refused. *)
Definition matmul (a b : ndarray) : result ndarray :=
  match a, b with
  | Array1 u, Array1 v =>
      if length u =? length v then Ok (Scalar (dot u v)) else Raise ValueError
  | Array1 u, Array2 y =>
      if length u =? nrows y
      then Ok (Array1 (map (fun j => dot u (column j y)) (seq 0 (ncols y))))
      else Raise ValueError
  | Array2 x, Array1 v =>
      if forallb (fun row => length row =? length v) x
      then Ok (Array1 (map (fun row => dot row v) x))
      else Raise ValueError
  | Array2 x, Array2 y =>
      if forallb (fun row => length row =? nrows y) x
      then Ok (Array2 (map (fun row =>
                 map (fun j => dot row (column j y)) (seq 0 (ncols y))) x))
      else Raise ValueError
  | _, _ => Raise ValueError
  end.

(** [np.dot]: a scalar operand multiplies; otherwise, for ranks 1 and 2,
    it is the matrix product. *)
Definition np_dot (a b : ndarray) : result ndarray :=
  match a, b with
  | Scalar x, Scalar y => Ok (Scalar (x * y))
  | Scalar x, Array1 v => Ok (Array1 (map (Rmult x) v))
  | Scalar x, Array2 m => Ok (Array2 (map (map (Rmult x)) m))
  | Array1 v, Scalar y => Ok (Array1 (map (fun e => e * y) v))
  | Array2 m, Scalar y => Ok (Array2 (map (map (fun e => e * y)) m))
  | _, _ => matmul a b
  end.

(** Broadcasting of an elementwise binary operation.  Two dimensions are
    compatible when they are equal or one of them is 1; the dimension of
    size 1 is stretched. *)
Definition bdim (a b : nat) : option nat :=
  if a =? b then Some a
  else if a =? 1 then Some b
  else if b =? 1 then Some a
  else None.

Definition bidx (n i : nat) : nat := if n =? 1 then 0%nat else i.

Definition broadcast2 (f : R -> R -> R) (a b : list (list R))
  : result (list (list R)) :=
  match bdim (nrows a) (nrows b), bdim (ncols a) (ncols b) with
  | Some r, Some c =>
      Ok (map (fun i =>
            map (fun j =>
                   f (get2 a (bidx (nrows a) i) (bidx (ncols a) j))
                     (get2 b (bidx (nrows b) i) (bidx (ncols b) j)))
                (seq 0 c))
            (seq 0 r))
  | _, _ => Raise RuntimeError
  end.

(** Operands of lower rank get leading dimensions of size 1; the result
    has the larger of the two ranks. *)
Definition as2d (a : ndarray) : list (list R) :=
  match a with
  | Scalar x => [[x]]
  | Array1 v => [v]
  | Array2 m => m
  end.

Definition of2d (rank : nat) (m : list (list R)) : ndarray :=
  match rank with
  | 0%nat => Scalar (get2 m 0 0)
  | 1%nat => Array1 (nth 0 m [])
  | _ => Array2 m
  end.

Definition broadcast (f : R -> R -> R) (a b : ndarray) : result ndarray :=
  m <- broadcast2 f (as2d a) (as2d b) ;;
  Ok (of2d (Nat.max (ndim a) (ndim b)) m).

Definition elementwise (f : R -> R) (a : ndarray) : ndarray :=
  match a with
  | Scalar x => Scalar (f x)
  | Array1 v => Array1 (map f v)
  | Array2 m => Array2 (map (map f) m)
  end.

(** [x.sum(axis=1)] of a tensor: the sums of the rows of a rank-2
    tensor; a tensor of lower rank has no axis 1 ("Dimension out of
    range"). *)
Definition tensor_sum_axis1 (a : ndarray) : result ndarray :=
  match a with
  | Array2 m => Ok (Array1 (map sum_list m))
  | _ => Raise IndexError
  end.

(** A value that is handed from one library to the other: a
    [numpy.ndarray] or a [torch.Tensor]. *)
Inductive array_like : Type :=
| NumPy (a : ndarray)
| Torch (a : ndarray).

(** NumPy broadcasts by the same rule; operands that do not fit raise
    ValueError ("operands could not be broadcast together"). *)
Definition np_broadcast (f : R -> R -> R) (a b : ndarray) : result ndarray :=
  match broadcast f a b with
  | Ok r => Ok r
  | Raise _ => Raise ValueError
  end.

(** [np.sum(x, axis=1)].  Of an ndarray: the sums of the rows of a
    rank-2 array; an array of lower rank has no axis 1 ("axis 1 is out
    of bounds").  Of anything that is not an ndarray NumPy calls the
    value's own method, [x.sum(axis=1, out=None)], and
    [torch.Tensor.sum] takes no [out]: the call raises TypeError
    whatever the tensor is. *)
Definition np_sum_axis1 (x : array_like) : result ndarray :=
  match x with
  | NumPy (Array2 m) => Ok (Array1 (map sum_list m))
  | NumPy _ => Raise AxisError
  | Torch _ => Raise TypeError
  end.

(** All entries of an array, row after row. *)
Definition entries (a : ndarray) : list R :=
  match a with
  | Scalar x => [x]
  | Array1 v => v
  | Array2 m => concat m
  end.

End Arrays.

(** ** The attention walkthrough *)

Module Attention.

Import Arrays.
Open Scope R_scope.

(** [dec_hidden_state = np.array([0.5,0.1,2])] *)
Definition dec_hidden_state : list R := [0.5; 0.1; 2].

(** [annotation = [0.3,1.2,4.5]] *)
Definition annotation : list R := [0.3; 1.2; 4.5].

(** [np.dot(dec_hidden_state, enc_hidden_state)] *)
Definition single_dot_attention_score
  (dec_hidden_state enc_hidden_state : ndarray) : result ndarray :=
  np_dot dec_hidden_state enc_hidden_state.

(** [np.transpose([[3,12,45], [59,2,5], [1,43,5], [4,3,45.3]])/10] *)
Definition annotations : result ndarray :=
  np_broadcast Rdiv
    (T (Array2 [[3; 12; 45]; [59; 2; 5]; [1; 43; 5]; [4; 3; 45.3]]))
    (Scalar 10).

(** [dec_hidden_state.T @ annotations] *)
Definition dot_attention_score (dec_hidden_state annotations : ndarray)
  : result ndarray :=
  matmul (T dec_hidden_state) annotations.

(** [torch.FloatTensor(x)]: the values of the array, as a tensor. *)
Definition torch_FloatTensor (x : ndarray) : ndarray := x.

(** [e_x = torch.exp(x); return e_x / e_x.sum(axis=1)]: the values of
    the tensor the function returns, over the reals. *)
Definition softmax (x : ndarray) : result ndarray :=
  let x := torch_FloatTensor x in
  let e_x := elementwise exp x in
  s <- tensor_sum_axis1 e_x ;;
  broadcast Rdiv e_x s.

(** [attention_weights * annotations], for the NumPy array
    [annotations].  The weights are a tensor, as [softmax] returns
    them, or a NumPy array; in both cases NumPy carries out the product
    (a tensor does not multiply an ndarray itself and leaves it to the
    array's reflected operator), so operands that do not fit raise
    ValueError, and the result is of the kind of the weights (the
    notebook prints [tensor(..., dtype=torch.float64)]). *)
Definition apply_attention_scores (attention_weights : array_like)
  (annotations : ndarray) : result array_like :=
  match attention_weights with
  | NumPy w => r <- np_broadcast Rmult w annotations ;; Ok (NumPy r)
  | Torch w => r <- np_broadcast Rmult w annotations ;; Ok (Torch r)
  end.

(** [np.sum(applied_attention, axis=1)] *)
Definition calculate_attention_vector (applied_attention : array_like)
  : result ndarray :=
  np_sum_axis1 applied_attention.

(** The cells of the walkthrough, one after the other, for a decoder
    state and an annotation matrix; the decoder state is handed to the
    scoring function as the column [dec_hidden_state[:,None]], and the
    weights go on as the tensor [softmax] returns. *)
Definition walkthrough (dec_hidden_state : list R) (annotations : ndarray)
  : result ndarray :=
  attention_weights_raw <-
    dot_attention_score (newaxis_col dec_hidden_state) annotations ;;
  attention_weights <- softmax attention_weights_raw ;;
  applied_attention <-
    apply_attention_scores (Torch attention_weights) annotations ;;
  calculate_attention_vector applied_attention.

(** The notebook's own values. *)
Definition attention_weights_raw : result ndarray :=
  A <- annotations ;;
  dot_attention_score (newaxis_col dec_hidden_state) A.

Definition attention_weights : result ndarray :=
  raw <- attention_weights_raw ;;
  softmax raw.

Definition applied_attention : result array_like :=
  w <- attention_weights ;;
  A <- annotations ;;
  apply_attention_scores (Torch w) A.

Definition attention_vector : result ndarray :=
  a <- applied_attention ;;
  calculate_attention_vector a.

(** *** The textbook formulas the walkthrough is compared with *)

(** Score of annotation i: the dot product of d with column i of A. *)
Definition spec_score (d : list R) (A : list (list R)) (i : nat) : R :=
  sum_upto (length d) (fun k => nth k d 0 * get2 A k i).

(** Softmax of m scores: exp(s i) / (exp(s 0) + ... + exp(s (m-1))). *)
Definition spec_softmax (m : nat) (s : nat -> R) (i : nat) : R :=
  exp (s i) / sum_upto m (fun j => exp (s j)).

(** Component k of the context vector: the sum over the m annotations of
    weight i times A[k][i]. *)
Definition spec_context (m : nat) (w : nat -> R) (A : list (list R)) (k : nat)
  : R :=
  sum_upto m (fun i => w i * get2 A k i).

Definition list_min (l : list R) : R := fold_right Rmin (hd 0 l) l.
Definition list_max (l : list R) : R := fold_right Rmax (hd 0 l) l.

End Attention.

(** ** Part 3: losses and the training loop *)

Module Training.

Import Arrays.
Open Scope R_scope.

(** A batch of flattened images, or of per-class outputs: one row per
    example. *)
Definition tensor2 : Type := list (list R).

(** The modules the notebook puts into [nn.Sequential].  A [Linear]
    holds its weight (out_features rows of in_features entries) and its
    bias (out_features entries). *)
Inductive layer : Type :=
| Linear (in_features out_features : nat) (weight : tensor2) (bias : list R)
| ReLU
| LogSoftmax (dim : nat).

(** [x @ W.T + b], row by row.  A batch is the list of its rows, so a
    batch without rows is the empty list whatever its width: the check
    of the width is that of the library for batches of at least one
    row. *)
Definition linear_forward (in_features : nat) (W : tensor2) (b : list R)
  (x : tensor2) : result tensor2 :=
  if forallb (fun row => length row =? in_features) x
  then Ok (map (fun row =>
                  map (fun wb => dot row (fst wb) + snd wb) (combine W b)) x)
  else Raise RuntimeError.

Definition relu (x : tensor2) : tensor2 := map (map (Rmax 0)) x.

(** [log_softmax] along dim 1: every entry minus the logarithm of the
    sum of the exponentials of its row. *)
Definition log_softmax_row (row : list R) : list R :=
  map (fun x => x - ln (sum_list (map exp row))) row.

Definition log_softmax (x : tensor2) : tensor2 := map log_softmax_row x.

(** [log_softmax] along dim 0: every entry minus the logarithm of the
    sum of the exponentials of its column. *)
Definition log_softmax_dim0 (x : tensor2) : tensor2 :=
  map (fun row =>
         map (fun jx => snd jx - ln (sum_list (map exp (column (fst jx) x))))
             (combine (seq 0 (length row)) row))
      x.

(** "dim=0 calculates softmax across the rows, so each column sums to 1,
    while dim=1 calculates across the columns so each row sums to 1"; a
    batch has no further dimension. *)
Definition layer_forward (l : layer) (x : tensor2) : result tensor2 :=
  match l with
  | Linear i _ W b => linear_forward i W b x
  | ReLU => Ok (relu x)
  | LogSoftmax 0 => Ok (log_softmax_dim0 x)
  | LogSoftmax 1 => Ok (log_softmax x)
  | LogSoftmax _ => Raise IndexError
  end.

(** [model(images)] for [model = nn.Sequential(...)]. *)
Fixpoint forward (model : list layer) (x : tensor2) : result tensor2 :=
  match model with
  | [] => Ok x
  | l :: rest => y <- layer_forward l x ;; forward rest y
  end.

(** The parameters of the three [Linear] modules of the notebook's
    networks. *)
Record parameters : Type := {
  W1 : tensor2; b1 : list R;
  W2 : tensor2; b2 : list R;
  W3 : tensor2; b3 : list R
}.

Definition wf_parameters (p : parameters) : Prop :=
  (has_shape (W1 p) 128 784 /\ length (b1 p) = 128%nat) /\
  (has_shape (W2 p) 64 128 /\ length (b2 p) = 64%nat) /\
  (has_shape (W3 p) 10 64 /\ length (b3 p) = 10%nat).

(** The network of the cell that uses [nn.CrossEntropyLoss]. *)
Definition model_cross_entropy (p : parameters) : list layer :=
  [Linear 784 128 (W1 p) (b1 p); ReLU;
   Linear 128 64 (W2 p) (b2 p); ReLU;
   Linear 64 10 (W3 p) (b3 p)].

(** The network of the cells that use [nn.NLLLoss], and of the training
    loop. *)
Definition model_log_softmax (p : parameters) : list layer :=
  [Linear 784 128 (W1 p) (b1 p); ReLU;
   Linear 128 64 (W2 p) (b2 p); ReLU;
   Linear 64 10 (W3 p) (b3 p);
   LogSoftmax 1].

(** [logits = model(images)] in the two kinds of cells. *)
Definition logits_cross_entropy (p : parameters) (images : tensor2)
  : result tensor2 :=
  forward (model_cross_entropy p) images.

Definition logits_log_softmax (p : parameters) (images : tensor2)
  : result tensor2 :=
  forward (model_log_softmax p) images.



(** Parameters and one image, all zero, for the notebook's networks. *)
Definition zero_parameters : parameters := {|
  W1 := repeat (repeat 0 784) 128; b1 := repeat 0 128;
  W2 := repeat (repeat 0 128) 64; b2 := repeat 0 64;
  W3 := repeat (repeat 0 64) 10; b3 := repeat 0 10
|}.


(** *** The training loop

    The parameters of the model are a family of reals indexed by their
    position; a gradient is such a family too.  What the forward pass,
    the criterion and autograd compute is left open: [model_fn w b] is
    the output of the model with parameters [w] on batch [b],
    [criterion_fn] the loss of such an output, and [loss_gradient w b]
    the gradient of that loss with respect to the parameters. *)

Section Loop.

Variable batch : Type.              (* images and labels *)
Variable output : Type.             (* what the model returns *)
Variable model_fn : (nat -> R) -> batch -> output.
Variable criterion_fn : output -> batch -> R.
(** Gradient, at the parameters [w], of the loss of batch [b]. *)
Variable loss_gradient : (nat -> R) -> batch -> nat -> R.

(** The library calls of one training pass, as they are logged. *)
Inductive event : Type :=
| EvForward (b : batch)      (* logits = model(images) *)
| EvCriterion (b : batch)    (* loss = criterion(logits, labels) *)
| EvZeroGrad                 (* optimizer.zero_grad() *)
| EvBackward (b : batch)     (* loss.backward() *)
| EvStep.                    (* optimizer.step() *)

(** The model and its optimizer: the parameters, their [.grad] ([None]
    until the first backward pass) and the calls made so far. *)
Record state : Type := {
  weights : nat -> R;
  grad : option (nat -> R);
  calls : list event
}.

(** A tensor computed from the parameters keeps the graph that produced
    it: here the parameters and the batch of the forward pass. *)
Record graph : Type := {
  graph_weights : nat -> R;
  graph_batch : batch
}.

Record output_tensor : Type := {
  out_value : output;
  out_graph : graph
}.

Record loss_tensor : Type := {
  item : R;
  loss_graph : graph
}.

Definition lr : R := 0.003.

Definition model_call (b : batch) (st : state) : state * output_tensor :=
  ({| weights := weights st; grad := grad st;
      calls := calls st ++ [EvForward b] |},
   {| out_value := model_fn (weights st) b;
      out_graph := {| graph_weights := weights st; graph_batch := b |} |}).

Definition criterion_call (logits : output_tensor) (b : batch) (st : state)
  : state * loss_tensor :=
  ({| weights := weights st; grad := grad st;
      calls := calls st ++ [EvCriterion b] |},
   {| item := criterion_fn (out_value logits) b;
      loss_graph := out_graph logits |}).

(** [optimizer.zero_grad()]: a gradient that exists is set to zero. *)
Definition zero_grad (st : state) : state :=
  {| weights := weights st;
     grad := match grad st with
             | None => None
             | Some _ => Some (fun _ => 0)
             end;
     calls := calls st ++ [EvZeroGrad] |}.

(** [loss.backward()]: the gradient of the loss is added to [.grad]. *)
Definition backward (loss : loss_tensor) (st : state) : state :=
  let g' := loss_gradient (graph_weights (loss_graph loss))
                          (graph_batch (loss_graph loss)) in
  {| weights := weights st;
     grad := match grad st with
             | None => Some g'
             | Some g => Some (fun i => g i + g' i)
             end;
     calls := calls st ++ [EvBackward (graph_batch (loss_graph loss))] |}.

(** [optimizer.step()] of [optim.SGD(model.parameters(), lr=0.003)]. *)
Definition step (st : state) : state :=
  {| weights := match grad st with
                | None => weights st
                | Some g => fun i => weights st i - lr * g i
                end;
     grad := grad st;
     calls := calls st ++ [EvStep] |}.

(** The body of [for images, labels in trainloader]. *)
Definition training_pass (acc : state * R) (b : batch) : state * R :=
  let (st, running_loss) := acc in
  let (st, logits) := model_call b st in
  let (st, loss) := criterion_call logits b st in
  let st := zero_grad st in
  let st := backward loss st in
  let st := step st in
  (st, running_loss + item loss).

(** One epoch: [running_loss = 0], the passes, and the printed mean. *)
Definition epoch (trainloader : list batch) (acc : state * list R)
  : state * list R :=
  let (st, printed) := acc in
  let (st, running_loss) := fold_left training_pass trainloader (st, 0) in
  (st, printed ++ [running_loss / INR (length trainloader)]).

(** [for e in range(epochs)]: the loader hands out the batches of epoch
    [e] as the list [trainloader e] (it shuffles). *)
Definition train (epochs : nat) (trainloader : nat -> list batch) (st : state)
  : state * list R :=
  fold_left (fun acc e => epoch (trainloader e) acc) (seq 0 epochs) (st, []).

(** The calls one pass over batch [b] makes. *)
Definition pass_calls (b : batch) : list event :=
  [EvForward b; EvCriterion b; EvZeroGrad; EvBackward b; EvStep].

End Loop.

Arguments EvForward {batch} b.
Arguments EvCriterion {batch} b.
Arguments EvZeroGrad {batch}.
Arguments EvBackward {batch} b.
Arguments EvStep {batch}.
Arguments weights {batch} s.
Arguments grad {batch} s.
Arguments calls {batch} s.
Arguments training_pass {batch output} model_fn criterion_fn loss_gradient acc b.
Arguments epoch {batch output} model_fn criterion_fn loss_gradient trainloader acc.
Arguments train {batch output} model_fn criterion_fn loss_gradient epochs trainloader st.
Arguments pass_calls {batch} b.

End Training.

(** ** Part 6: saving and loading models *)

Module Checkpoint.

Open Scope R_scope.

(** A tensor: its [torch.Size] and its values in row-major order. *)
Record Tensor : Type := {
  tshape : list nat;
  tdata : list R
}.

Definition numel (shape : list nat) : nat := fold_right Nat.mul 1%nat shape.

(** A tensor of the given shape whose entry number [i] is [fill i]. *)
Definition new_tensor (fill : nat -> R) (shape : list nat) : Tensor :=
  {| tshape := shape; tdata := map fill (seq 0 (numel shape)) |}.

Definition shape_eqb (s t : list nat) : bool :=
  if list_eq_dec Nat.eq_dec s t then true else false.

(** [nn.Linear]: weight of shape (out_features, in_features), bias of
    shape (out_features). *)
Record Linear : Type := {
  in_features : nat;
  out_features : nat;
  weight : Tensor;
  bias : Tensor
}.

(** The module printed by the notebook:
    [Network((hidden_layers): ModuleList(...), (output): Linear(...),
    (dropout): Dropout(p=0.5))]. *)
Record Network : Type := {
  hidden_layers : list Linear;
  output : Linear;
  dropout : R
}.

(** The initial value of entry [i] of the parameter called [key]; the
    library draws it at random. *)
Definition initializer : Type := string -> nat -> R.

Definition string_of_nat (n : nat) : string :=
  NilEmpty.string_of_uint (Nat.to_uint n).

(** A string without the dot that separates the parts of a parameter
    name; the decimal numerals are such strings. *)
Fixpoint no_dot (s : string) : Prop :=
  match s with
  | EmptyString => True
  | String c s' => c <> "."%char /\ no_dot s'
  end.

Definition hidden_prefix (i : nat) : string :=
  ("hidden_layers." ++ string_of_nat i ++ ".")%string.

Definition output_prefix : string := "output."%string.

Definition weight_key (prefix : string) : string := (prefix ++ "weight")%string.
Definition bias_key (prefix : string) : string := (prefix ++ "bias")%string.

Definition new_Linear (init : initializer) (prefix : string)
  (in_features out_features : nat) : Linear :=
  {| in_features := in_features;
     out_features := out_features;
     weight := new_tensor (init (weight_key prefix)) [out_features; in_features];
     bias := new_tensor (init (bias_key prefix)) [out_features] |}.

(** The hidden layers number [i], [i+1], ...: each maps the size before
    it to its own size. *)
Fixpoint new_hidden (init : initializer) (i : nat) (input_size : nat)
  (sizes : list nat) : list Linear :=
  match sizes with
  | [] => []
  | h :: rest =>
      new_Linear init (hidden_prefix i) input_size h
        :: new_hidden init (S i) h rest
  end.

(** Modelled from the spec: the class [fc_model.Network], whose file is
    not among the sources.  "A feed-forward network described by a list
    of layer sizes": as the notebook prints it, [Network(784, 10, [512,
    256, 128])] has the hidden layers Linear(784, 512), Linear(512, 256)
    and Linear(256, 128), the output layer Linear(128, 10) and
    Dropout(p=0.5).  The first hidden layer is built from
    [hidden_layers[0]], which an empty list does not have. *)
Definition new_Network (init : initializer)
  (input_size output_size : nat) (hidden_sizes : list nat) : result Network :=
  match hidden_sizes with
  | [] => Raise IndexError
  | _ :: _ =>
      Ok {| hidden_layers := new_hidden init 0 input_size hidden_sizes;
            output := new_Linear init output_prefix
                        (last hidden_sizes 0%nat) output_size;
            dropout := 0.5 |}
  end.

(** *** State dicts *)

(** An ordered dictionary from parameter names to tensors. *)
Definition state_dict_t : Type := list (string * Tensor).

Fixpoint lookup (key : string) (sd : state_dict_t) : option Tensor :=
  match sd with
  | [] => None
  | (k, t) :: rest => if String.eqb key k then Some t else lookup key rest
  end.

Definition keys (sd : state_dict_t) : list string := map fst sd.

Definition linear_state (prefix : string) (l : Linear) : state_dict_t :=
  [(weight_key prefix, weight l); (bias_key prefix, bias l)].

Fixpoint hidden_state (i : nat) (ls : list Linear) : state_dict_t :=
  match ls with
  | [] => []
  | l :: rest => linear_state (hidden_prefix i) l ++ hidden_state (S i) rest
  end.

(** [model.state_dict()]: 'hidden_layers.0.weight', 'hidden_layers.0.bias',
    ..., 'output.weight', 'output.bias'. *)
Definition state_dict (m : Network) : state_dict_t :=
  hidden_state 0 (hidden_layers m) ++ linear_state output_prefix (output m).

(** The shapes of the tensors of a state dict, under their names. *)
Definition shapes (sd : state_dict_t) : list (string * list nat) :=
  map (fun kt => (fst kt, tshape (snd kt))) sd.

(** *** [load_state_dict]

    Modelled from the spec: [torch.nn.Module.load_state_dict], a function
    of the underlying library, which is not among the sources.  The
    notebook relies on "letting the underlying library raise on shape
    mismatches".  As the library does it with [strict=True]: every
    parameter of the model is looked up under its name; a tensor of
    another shape is reported ("size mismatch for ...") and skipped, a
    tensor of the same shape is copied into the parameter
    ([param.copy_(input_param)]), an absent name is reported as missing;
    names of the state dict that are not parameters of the model are
    reported as unexpected.  The call raises [RuntimeError] after all
    parameters were visited, when something was reported (the traceback
    in the notebook: [if len(error_msgs) > 0: raise RuntimeError(...)]);
    otherwise it returns "<All keys matched successfully>". *)

Inductive load_message : Type :=
| SizeMismatch (key : string)
| MissingKey (key : string)
| UnexpectedKey (key : string).

Inductive load_report : Type := AllKeysMatched.

(** [param.copy_(input_param)] *)
Definition copy_ (param input : Tensor) : Tensor :=
  {| tshape := tshape param; tdata := tdata input |}.

Definition load_tensor (sd : state_dict_t) (key : string) (param : Tensor)
  : Tensor * list load_message :=
  match lookup key sd with
  | Some input =>
      if shape_eqb (tshape input) (tshape param)
      then (copy_ param input, [])
      else (param, [SizeMismatch key])
  | None => (param, [MissingKey key])
  end.

Definition load_linear (sd : state_dict_t) (prefix : string) (l : Linear)
  : Linear * list load_message :=
  let (w, e1) := load_tensor sd (weight_key prefix) (weight l) in
  let (b, e2) := load_tensor sd (bias_key prefix) (bias l) in
  ({| in_features := in_features l; out_features := out_features l;
      weight := w; bias := b |}, e1 ++ e2).

Fixpoint load_hidden (sd : state_dict_t) (i : nat) (ls : list Linear)
  : list Linear * list load_message :=
  match ls with
  | [] => ([], [])
  | l :: rest =>
      let (l', e1) := load_linear sd (hidden_prefix i) l in
      let (rest', e2) := load_hidden sd (S i) rest in
      (l' :: rest', e1 ++ e2)
  end.

(** The names of the state dict for which the model has no parameter. *)
Definition unexpected_keys (m : Network) (sd : state_dict_t) : list string :=
  filter (fun k => negb (existsb (String.eqb k) (keys (state_dict m))))
         (keys sd).

(** The messages of a call, and the model it leaves behind. *)
Definition load_messages_and_model (m : Network) (sd : state_dict_t)
  : Network * list load_message :=
  let (hs, e1) := load_hidden sd 0 (hidden_layers m) in
  let (o, e2) := load_linear sd output_prefix (output m) in
  ({| hidden_layers := hs; output := o; dropout := dropout m |},
   map UnexpectedKey (unexpected_keys m sd) ++ e1 ++ e2).

(** [model.load_state_dict(state_dict)]: the model is changed in place,
    so the call yields the model as it is afterwards together with its
    outcome. *)
Definition load_state_dict (m : Network) (sd : state_dict_t)
  : Network * result load_report :=
  let (m', msgs) := load_messages_and_model m sd in
  (m', match msgs with
       | [] => Ok AllKeysMatched
       | _ :: _ => Raise RuntimeError
       end).

(** *** Files *)

(** What the notebook pickles: a state dict, or the checkpoint
    dictionary with the keys 'input_size', 'output_size',
    'hidden_layers' and 'state_dict'. *)
Record checkpoint_t : Type := {
  input_size : nat;
  output_size : nat;
  ck_hidden_layers : list nat;
  ck_state_dict : state_dict_t
}.

Inductive pyobject : Type :=
| PyStateDict (sd : state_dict_t)
| PyCheckpoint (c : checkpoint_t).

Definition filesystem : Type := list (string * pyobject).

(** [torch.save(obj, path)] *)
Definition torch_save (obj : pyobject) (path : string) (fs : filesystem)
  : filesystem :=
  (path, obj) :: fs.

(** [torch.load(path)] *)
Fixpoint torch_load (path : string) (fs : filesystem) : result pyobject :=
  match fs with
  | [] => Raise FileNotFoundError
  | (p, obj) :: rest => if String.eqb path p then Ok obj else torch_load path rest
  end.

(** The cell that builds the checkpoint of [model]:
    [{'input_size': 784, 'output_size': 10,
      'hidden_layers': [each.out_features for each in model.hidden_layers],
      'state_dict': model.state_dict()}]. *)
Definition checkpoint (model : Network) : checkpoint_t :=
  {| input_size := 784;
     output_size := 10;
     ck_hidden_layers := map out_features (hidden_layers model);
     ck_state_dict := state_dict model |}.

(** [torch.save(checkpoint, 'checkpoint.pth')] *)
Definition save_checkpoint (model : Network) (fs : filesystem) : filesystem :=
  torch_save (PyCheckpoint (checkpoint model)) "checkpoint.pth" fs.

(** [load_checkpoint(filepath)]; [init] stands for the random values
    the rebuilt network starts with. *)
Definition load_checkpoint (init : initializer) (filepath : string)
  (fs : filesystem) : result Network :=
  obj <- torch_load filepath fs ;;
  match obj with
  | PyStateDict _ => Raise KeyError
  | PyCheckpoint checkpoint =>
      model <- new_Network init (input_size checkpoint)
                 (output_size checkpoint) (ck_hidden_layers checkpoint) ;;
      let (model, outcome) :=
        load_state_dict model (ck_state_dict checkpoint) in
      _ <- outcome ;;
      Ok model
  end.

(** Two initializers that differ everywhere. *)
Definition zeros : initializer := fun _ _ => 0.
Definition ones : initializer := fun _ _ => 1.

End Checkpoint.

(** ** Part 3: the cells around the training loop *)

Module TrainingCells.

Import Arrays Training.
Open Scope R_scope.



(** *** The autograd cells

    The entries of [x = torch.randn(2,2, requires_grad=True)] in
    row-major order; [**], [mean] and [/] act on the entries whatever
    the shape is. *)

(** [y = x**2] *)
Definition pow2 (x : list R) : list R := map (fun t => t ^ 2) x.

(** [z = y.mean()] *)
Definition mean (y : list R) : R := sum_list y / INR (length y).

Definition z (x : list R) : R := mean (pow2 x).

(** [x/2] *)
Definition half (x : list R) : list R := map (fun t => t / 2) x.

(** The tensor with entry k replaced by t. *)
Fixpoint set_nth (k : nat) (t : R) (x : list R) : list R :=
  match x, k with
  | [], _ => []
  | _ :: rest, O => t :: rest
  | a :: rest, S k' => a :: set_nth k' t rest
  end.

(** [g] is the gradient of [f] at [x], what [x.grad] holds after
    [f(x).backward()] on a fresh [x]: a tensor with the entries of [x]
    whose entry k is the derivative of [f] in entry k of [x]. *)
Definition is_gradient (f : list R -> R) (x g : list R) : Prop :=
  length g = length x /\
  forall k, (k < length x)%nat ->
    derivable_pt_lim (fun t => f (set_nth k t x)) (nth k x 0) (nth k g 0).

(** *** Stochastic gradient descent, to compare the loop with *)

Section SGD.

Variable batch : Type.
Variable output : Type.
Variable model_fn : (nat -> R) -> batch -> output.
Variable criterion_fn : output -> batch -> R.
Variable loss_gradient : (nat -> R) -> batch -> nat -> R.

(** One update: every parameter moves against the gradient of the loss
    of the batch, taken at the current parameters. *)
Definition sgd_update (w : nat -> R) (b : batch) : nat -> R :=
  fun i => w i - lr * loss_gradient w b i.

Definition sgd (bs : list batch) (w : nat -> R) : nat -> R :=
  fold_left sgd_update bs w.

(** The loss of each batch at the parameters reached before its update. *)
Fixpoint batch_losses (w : nat -> R) (bs : list batch) : list R :=
  match bs with
  | [] => []
  | b :: rest =>
      criterion_fn (model_fn w b) b :: batch_losses (sgd_update w b) rest
  end.

End SGD.

Arguments sgd_update {batch} loss_gradient w b.
Arguments sgd {batch} loss_gradient bs w.
Arguments batch_losses {batch output} model_fn criterion_fn loss_gradient w bs.

End TrainingCells.

(** ** Part 6: the cells that save and load a state dict *)

Module CheckpointCells.

Import Checkpoint.

(** [torch.save(model.state_dict(), 'checkpoint.pth')] *)
Definition save_state_dict (model : Network) (fs : filesystem) : filesystem :=
  torch_save (PyStateDict (state_dict model)) "checkpoint.pth" fs.

(** [state_dict = torch.load('checkpoint.pth')] followed by
    [model.load_state_dict(state_dict)]: the model as it is afterwards
    and the outcome.  A file that holds the checkpoint dictionary has
    none of the parameter names and four names the model does not know,
    which the library reports as missing and unexpected keys. *)
Definition reload_state_dict (model : Network) (fs : filesystem)
  : Network * result load_report :=
  match torch_load "checkpoint.pth" fs with
  | Ok (PyStateDict state_dict) => load_state_dict model state_dict
  | Ok (PyCheckpoint _) => (model, Raise RuntimeError)
  | Raise e => (model, Raise e)
  end.

(** Two layers, and two networks, of the same architecture: the same
    sizes and the same tensor shapes, whatever the values are. *)
Definition same_linear (l l' : Linear) : Prop :=
  in_features l = in_features l' /\
  out_features l = out_features l' /\
  tshape (weight l) = tshape (weight l') /\
  tshape (bias l) = tshape (bias l').

Definition same_architecture (m m' : Network) : Prop :=
  Forall2 same_linear (hidden_layers m) (hidden_layers m') /\
  same_linear (output m) (output m') /\
  dropout m = dropout m'.

End CheckpointCells.

(** * Properties *)

Lemma returns_not_raises {A : Type} (r : result A) : returns r -> ~ raises r.
Proof. intros [a ->] [e H]. discriminate. Qed.

(** ** Lists, sums and broadcasting *)

Module ArraysFacts.

Import Arrays.
Open Scope R_scope.

Lemma nth_map_seq (A : Type) (f : nat -> A) (d : A) (n i : nat) :
  (i < n)%nat -> nth i (map f (seq 0 n)) d = f i.
Proof.
  intros Hi.
  rewrite (nth_indep _ d (f 0%nat)) by (rewrite length_map, length_seq; exact Hi).
  rewrite map_nth, seq_nth by exact Hi.
  reflexivity.
Qed.

Lemma map_nth_seq (A B : Type) (f : A -> B) (d : A) (l : list A) :
  map (fun i => f (nth i l d)) (seq 0 (length l)) = map f l.
Proof.
  induction l as [|a l IH]; [reflexivity|].
  cbn [length seq map nth]. f_equal.
  rewrite <- seq_shift, map_map. exact IH.
Qed.

Lemma sum_list_cons (a : R) (l : list R) : sum_list (a :: l) = a + sum_list l.
Proof. reflexivity. Qed.

Lemma sum_list_div (c : R) (l : list R) :
  sum_list (map (fun x => x / c) l) = sum_list l / c.
Proof.
  induction l as [|a l IH].
  - cbn. unfold Rdiv. lra.
  - cbn [map]. rewrite !sum_list_cons, IH. unfold Rdiv. lra.
Qed.

Lemma sum_list_exp_nonneg (l : list R) : 0 <= sum_list (map exp l).
Proof.
  induction l as [|a l IH]; cbn [map].
  - cbn. lra.
  - rewrite sum_list_cons. pose proof (exp_pos a). lra.
Qed.

Lemma sum_list_exp_pos (l : list R) : l <> [] -> 0 < sum_list (map exp l).
Proof.
  destruct l as [|a l]; [congruence|]. intros _.
  cbn [map]. rewrite sum_list_cons.
  pose proof (exp_pos a). pose proof (sum_list_exp_nonneg l). lra.
Qed.

(** Exponentials divided by their sum add up to 1. *)
Lemma normalized_exp_sum (s : list R) :
  s <> [] ->
  sum_list (map (fun x => exp x / sum_list (map exp s)) s) = 1.
Proof.
  intros Hs. pose proof (sum_list_exp_pos _ Hs) as Hpos.
  rewrite <- (map_map exp (fun y => y / sum_list (map exp s))).
  rewrite sum_list_div. field. lra.
Qed.

Lemma sum_upto_S (n : nat) (f : nat -> R) :
  sum_upto (S n) f = f 0%nat + sum_upto n (fun k => f (S k)).
Proof.
  unfold sum_upto. cbn [seq map]. rewrite sum_list_cons.
  rewrite <- seq_shift, map_map. reflexivity.
Qed.

Lemma sum_upto_ext (n : nat) (f g : nat -> R) :
  (forall i, (i < n)%nat -> f i = g i) -> sum_upto n f = sum_upto n g.
Proof.
  intros H. unfold sum_upto. f_equal.
  apply map_ext_in. intros i Hi. apply in_seq in Hi. apply H. lia.
Qed.

(** The dot product as a sum over positions. *)
Lemma dot_sum_upto (u v : list R) :
  length u = length v ->
  dot u v = sum_upto (length u) (fun k => nth k u 0 * nth k v 0).
Proof.
  revert v. induction u as [|a u IH]; intros [|b v] H; try discriminate.
  - reflexivity.
  - cbn [length]. rewrite sum_upto_S. cbn [nth].
    unfold dot. cbn [combine map fst snd]. rewrite sum_list_cons.
    f_equal. apply IH. cbn in H. lia.
Qed.

Lemma nth_column (j k : nat) (m : list (list R)) :
  nth k (column j m) 0 = get2 m k j.
Proof.
  unfold column, get2. revert k.
  induction m as [|row m IH]; intros [|k]; cbn [map nth].
  - destruct j; reflexivity.
  - destruct j; reflexivity.
  - reflexivity.
  - apply IH.
Qed.

Lemma length_column (j : nat) (m : list (list R)) :
  length (column j m) = length m.
Proof. apply length_map. Qed.

Lemma has_shape_ncols (m : list (list R)) (r c : nat) :
  has_shape m r c -> (0 < r)%nat -> ncols m = c.
Proof.
  intros [Hr Hc] Hpos. destruct m as [|row m]; cbn in *.
  - lia.
  - inversion Hc; assumption.
Qed.

Lemma has_shape_nth (m : list (list R)) (r c k : nat) :
  has_shape m r c -> (k < r)%nat -> length (nth k m []) = c.
Proof.
  intros [Hr Hc] Hk. rewrite Forall_forall in Hc. apply Hc.
  apply nth_In. lia.
Qed.

Lemma bdim_refl (n : nat) : bdim n n = Some n.
Proof. unfold bdim. rewrite Nat.eqb_refl. reflexivity. Qed.

Lemma bdim_1_l (n : nat) : bdim 1 n = Some n.
Proof.
  unfold bdim. destruct (Nat.eqb_spec 1 n) as [<-|_]; reflexivity.
Qed.

Lemma bdim_1_r (n : nat) : bdim n 1 = Some n.
Proof.
  unfold bdim. destruct (Nat.eqb_spec n 1) as [->|_]; reflexivity.
Qed.

Lemma bidx_lt (n i : nat) : (i < n)%nat -> bidx n i = i.
Proof.
  unfold bidx. destruct (Nat.eqb_spec n 1) as [->|_]; lia.
Qed.

Lemma map_seq_ext (A : Type) (n : nat) (f g : nat -> A) :
  (forall i, (i < n)%nat -> f i = g i) -> map f (seq 0 n) = map g (seq 0 n).
Proof.
  intros H. apply map_ext_in. intros i Hi. apply in_seq in Hi. apply H. lia.
Qed.

(** A row divided by a one-entry array: every entry is divided by it. *)
Lemma broadcast_row_div (row : list R) (c : R) :
  broadcast Rdiv (Array2 [row]) (Array1 [c])
  = Ok (Array2 [map (fun x => x / c) row]).
Proof.
  unfold broadcast, broadcast2, nrows. cbn [as2d ncols length].
  rewrite bdim_refl, bdim_1_r. cbn [bind seq map ndim shape length Nat.max of2d].
  do 3 f_equal.
  rewrite <- (map_nth_seq _ _ (fun x => x / c) 0 row).
  apply map_seq_ext. intros j Hj.
  rewrite (bidx_lt _ _ Hj). reflexivity.
Qed.

(** A row of m weights times an n x m matrix: row k of the result holds
    weight i times the entry (k, i). *)
Lemma broadcast_row_mult (w : list R) (A : list (list R)) (n m : nat) :
  length w = m -> has_shape A n m -> (0 < n)%nat ->
  broadcast Rmult (Array2 [w]) (Array2 A)
  = Ok (Array2 (map (fun k => map (fun i => nth i w 0 * get2 A k i) (seq 0 m))
                    (seq 0 n))).
Proof.
  intros Hw HA Hn.
  unfold broadcast, broadcast2, nrows. cbn [as2d].
  rewrite (has_shape_ncols _ _ _ HA Hn).
  destruct HA as [Hlen HA]. rewrite Hlen.
  cbn [length ncols]. rewrite Hw, bdim_1_l, bdim_refl.
  cbn [bind ndim shape length Nat.max of2d].
  do 2 f_equal.
  apply map_seq_ext. intros k Hk.
  apply map_seq_ext. intros i Hi.
  rewrite (bidx_lt _ _ Hk), (bidx_lt _ _ Hi). reflexivity.
Qed.

Lemma np_broadcast_row_mult (w : list R) (A : list (list R)) (n m : nat) :
  length w = m -> has_shape A n m -> (0 < n)%nat ->
  np_broadcast Rmult (Array2 [w]) (Array2 A)
  = Ok (Array2 (map (fun k => map (fun i => nth i w 0 * get2 A k i) (seq 0 m))
                    (seq 0 n))).
Proof.
  intros Hw HA Hn. unfold np_broadcast.
  rewrite (broadcast_row_mult w A n m Hw HA Hn). reflexivity.
Qed.

End ArraysFacts.

(** ** The attention walkthrough *)

Module AttentionFacts.

Import Arrays ArraysFacts Attention.
Open Scope R_scope.

Lemma transpose_newaxis_col (d : list R) :
  d <> [] -> T (newaxis_col d) = Array2 [d].
Proof.
  intros Hd. unfold newaxis_col, T, transpose. f_equal.
  destruct d as [|x d]; [congruence|].
  cbn [map ncols length seq]. f_equal.
  unfold column. cbn [map nth]. f_equal.
  rewrite map_map. cbn [nth]. apply map_id.
Qed.

(** The scores of all annotations: one row, entry j is the dot product
    of d with column j. *)
Lemma dot_attention_score_row (d : list R) (A : list (list R)) (n m : nat) :
  (0 < n)%nat -> length d = n -> has_shape A n m ->
  dot_attention_score (newaxis_col d) (Array2 A)
  = Ok (Array2 [map (fun j => dot d (column j A)) (seq 0 m)]).
Proof.
  intros Hn Hd HA. unfold dot_attention_score.
  rewrite transpose_newaxis_col by (intros ->; cbn in Hd; lia).
  unfold matmul, nrows. cbn [forallb].
  rewrite (has_shape_ncols _ _ _ HA Hn).
  destruct HA as [Hlen _]. rewrite Hd, Hlen, Nat.eqb_refl. reflexivity.
Qed.

(** The same scores when d is handed over as a rank-1 array. *)
Lemma dot_attention_score_vector (d : list R) (A : list (list R)) (n m : nat) :
  (0 < n)%nat -> length d = n -> has_shape A n m ->
  dot_attention_score (Array1 d) (Array2 A)
  = Ok (Array1 (map (fun j => dot d (column j A)) (seq 0 m))).
Proof.
  intros Hn Hd HA. unfold dot_attention_score, T, matmul, nrows.
  rewrite (has_shape_ncols _ _ _ HA Hn).
  destruct HA as [Hlen _]. rewrite Hd, Hlen, Nat.eqb_refl. reflexivity.
Qed.

Lemma single_dot_attention_score_vectors (d e : list R) :
  length d = length e ->
  single_dot_attention_score (Array1 d) (Array1 e) = Ok (Scalar (dot d e)).
Proof.
  intros H. unfold single_dot_attention_score, np_dot, matmul.
  rewrite H, Nat.eqb_refl. reflexivity.
Qed.

Lemma dot_column_spec_score (d : list R) (A : list (list R)) (j : nat) :
  length d = length A -> dot d (column j A) = spec_score d A j.
Proof.
  intros H. rewrite dot_sum_upto by (rewrite length_column; exact H).
  unfold spec_score. apply sum_upto_ext. intros k _.
  rewrite nth_column. reflexivity.
Qed.

(** Softmax of a rank-2 array with one row. *)
Lemma softmax_row (s : list R) :
  softmax (Array2 [s])
  = Ok (Array2 [map (fun x => exp x / sum_list (map exp s)) s]).
Proof.
  unfold softmax, torch_FloatTensor. cbn [elementwise map tensor_sum_axis1 bind].
  rewrite broadcast_row_div, map_map. reflexivity.
Qed.

(** A rank-1 array has no axis 1 to sum over. *)
Lemma softmax_vector (v : list R) : softmax (Array1 v) = Raise IndexError.
Proof. reflexivity. Qed.

Lemma softmax_row_pos (s : list R) (x : R) :
  In x (map (fun x => exp x / sum_list (map exp s)) s) -> 0 < x.
Proof.
  intros Hx. apply in_map_iff in Hx. destruct Hx as [y [<- Hy]].
  assert (Hs : s <> []) by (intros ->; contradiction).
  pose proof (sum_list_exp_pos _ Hs). pose proof (exp_pos y).
  apply Rdiv_lt_0_compat; assumption.
Qed.

(** The first three cells on a decoder state of n entries and n x m
    annotations: the weighted annotations, a tensor whose entry (k, i)
    is weight i times A[k][i]. *)
Lemma applied_attention_general (d : list R) (A : list (list R)) (n m : nat) :
  (0 < n)%nat -> length d = n -> has_shape A n m ->
  (raw <- dot_attention_score (newaxis_col d) (Array2 A) ;;
   w <- softmax raw ;;
   apply_attention_scores (Torch w) (Array2 A))
  = Ok (Torch (Array2
         (map (fun k =>
                 map (fun i => spec_softmax m (spec_score d A) i * get2 A k i)
                     (seq 0 m))
              (seq 0 n)))).
Proof.
  intros Hn Hd HA.
  rewrite (dot_attention_score_row d A n m Hn Hd HA). cbn [bind].
  rewrite softmax_row. cbn [bind].
  unfold apply_attention_scores.
  rewrite (np_broadcast_row_mult _ A n m); [| |exact HA|exact Hn].
  2:{ rewrite !length_map, length_seq. reflexivity. }
  cbn [bind]. do 3 f_equal.
  apply map_seq_ext. intros k Hk.
  apply map_seq_ext. intros i Hi. f_equal.
  rewrite !map_map.
  rewrite (nth_map_seq _ _ 0 _ _ Hi).
  unfold spec_softmax, sum_upto.
  assert (Hlen : length d = length A) by (destruct HA; congruence).
  rewrite (dot_column_spec_score _ _ _ Hlen). f_equal. f_equal.
  apply map_seq_ext. intros j _.
  rewrite (dot_column_spec_score _ _ _ Hlen). reflexivity.
Qed.

(** The walkthrough hands the tensor of the weighted annotations to
    [np.sum], which raises. *)
Lemma walkthrough_general (d : list R) (A : list (list R)) (n m : nat) :
  (0 < n)%nat -> length d = n -> has_shape A n m ->
  walkthrough d (Array2 A) = Raise TypeError.
Proof.
  intros Hn Hd HA.
  pose proof (applied_attention_general d A n m Hn Hd HA) as H.
  unfold walkthrough.
  destruct (dot_attention_score (newaxis_col d) (Array2 A)) as [raw|e];
    cbn [bind] in *; [|discriminate].
  destruct (softmax raw) as [w|e]; cbn [bind] in *; [|discriminate].
  rewrite H. reflexivity.
Qed.

(** C1 (the code misses the claim): for a decoder state d of 3 entries
    and a 3 x 4 annotation matrix A the cells of the walkthrough do not
    return the weighted sum: the scoring of d[:,None] against A, softmax
    and the multiplication by the weights return the tensor of the
    weighted annotations, and [calculate_attention_vector] raises
    TypeError on it, so the walkthrough raises.  On the NumPy array with
    the same entries [calculate_attention_vector] returns the vector
    the claim describes, whose component k is the sum over the four
    annotations i of softmax(d^T A)_i * A[k][i] (over the reals).  The
    notebook's own cell [attention_vector] raises in this way. *)
Theorem walkthrough_type_error (d : list R) (A : list (list R)) :
  length d = 3%nat -> has_shape A 3 4 ->
  attention_vector = Raise TypeError /\
  walkthrough d (Array2 A) = Raise TypeError /\
  exists applied,
    (raw <- dot_attention_score (newaxis_col d) (Array2 A) ;;
     w <- softmax raw ;;
     apply_attention_scores (Torch w) (Array2 A)) = Ok (Torch applied) /\
    calculate_attention_vector (Torch applied) = Raise TypeError /\
    calculate_attention_vector (NumPy applied)
    = Ok (Array1 (map (spec_context 4 (spec_softmax 4 (spec_score d A)) A)
                      (seq 0 3))).
Proof.
  intros Hd HA.
  assert (Hn : (0 < 3)%nat) by lia.
  split; [reflexivity|].
  split; [exact (walkthrough_general d A 3 4 Hn Hd HA)|].
  eexists. split; [exact (applied_attention_general d A 3 4 Hn Hd HA)|].
  split; reflexivity.
Qed.

(** Handed to the scoring function as a rank-1 array, the decoder state
    gives a rank-1 array of scores, which softmax refuses. *)
Lemma scores_of_vector_refused (d : list R) (A : list (list R)) (n m : nat) :
  (0 < n)%nat -> length d = n -> has_shape A n m ->
  (raw <- dot_attention_score (Array1 d) (Array2 A) ;; softmax raw)
  = Raise IndexError.
Proof.
  intros Hn Hd HA.
  rewrite (dot_attention_score_vector d A n m Hn Hd HA). reflexivity.
Qed.

Lemma annotations_value :
  annotations
  = Ok (Array2 [[3 / 10; 59 / 10; 1 / 10; 4 / 10];
                [12 / 10; 2 / 10; 43 / 10; 3 / 10];
                [45 / 10; 5 / 10; 5 / 10; 45.3 / 10]]).
Proof. reflexivity. Qed.

Lemma annotations_shape :
  has_shape [[3 / 10; 59 / 10; 1 / 10; 4 / 10];
             [12 / 10; 2 / 10; 43 / 10; 3 / 10];
             [45 / 10; 5 / 10; 5 / 10; 45.3 / 10]] 3 4.
Proof. split; [reflexivity|repeat constructor]. Qed.

Lemma walkthrough_type_error_witness :
  exists A,
    annotations = Ok (Array2 A) /\
    attention_vector = Raise TypeError /\
    walkthrough dec_hidden_state (Array2 A) = Raise TypeError /\
    exists applied,
      (raw <- dot_attention_score (newaxis_col dec_hidden_state) (Array2 A) ;;
       w <- softmax raw ;;
       apply_attention_scores (Torch w) (Array2 A)) = Ok (Torch applied) /\
      calculate_attention_vector (Torch applied) = Raise TypeError /\
      calculate_attention_vector (NumPy applied)
      = Ok (Array1 (map (spec_context 4
                           (spec_softmax 4 (spec_score dec_hidden_state A)) A)
                        (seq 0 3))).
Proof.
  eexists. split; [exact annotations_value|].
  apply walkthrough_type_error; [reflexivity|exact annotations_shape].
Defined.

(** The scores the notebook prints: [array([[9.27, 3.97, 1.48, 9.29]])]. *)
Lemma attention_weights_raw_value :
  attention_weights_raw = Ok (Array2 [[9.27; 3.97; 1.48; 9.29]]).
Proof.
  unfold attention_weights_raw. rewrite annotations_value. cbn [bind].
  rewrite (dot_attention_score_row dec_hidden_state _ 3 4);
    [|lia|reflexivity|exact annotations_shape].
  unfold dec_hidden_state, dot. cbn.
  repeat f_equal; lra.
Qed.

(** C2 (as stated, refuted): softmax accepts a score row without
    entries and returns it, and its entries sum to 0, not to 1; and for
    a score vector given as a rank-1 array it returns nothing at all. *)
Lemma softmax_not_distribution_counterexample :
  (softmax (Array2 [[]]) = Ok (Array2 [[]]) /\
   sum_list (entries (Array2 [[]])) = 0 /\
   sum_list (entries (Array2 [[]])) <> 1) /\
  softmax (Array1 [1; 2; 3]) = Raise IndexError.
Proof.
  split; [|reflexivity].
  split; [reflexivity|]. cbn. split; lra.
Qed.

(** C2 (amended): for every score row with at least one entry, given to
    softmax as a rank-2 array with one row, softmax returns an array of
    the same shape whose entries are non-negative and sum to 1. *)
Theorem softmax_probability_distribution (s : list R) :
  s <> [] ->
  exists out,
    softmax (Array2 [s]) = Ok out /\
    shape out = [1%nat; length s] /\
    Forall (fun x => 0 <= x) (entries out) /\
    sum_list (entries out) = 1.
Proof.
  intros Hs. eexists. split; [apply softmax_row|].
  cbn [shape nrows ncols length entries concat].
  rewrite app_nil_r, length_map.
  repeat split.
  - apply Forall_forall. intros x Hx.
    apply Rlt_le. exact (softmax_row_pos s x Hx).
  - apply normalized_exp_sum. exact Hs.
Qed.

Lemma softmax_probability_distribution_witness :
  exists out,
    softmax (Array2 [[9.27; 3.97; 1.48; 9.29]]) = Ok out /\
    shape out = [1%nat; 4%nat] /\
    Forall (fun x => 0 <= x) (entries out) /\
    sum_list (entries out) = 1.
Proof.
  apply (softmax_probability_distribution [9.27; 3.97; 1.48; 9.29]).
  discriminate.
Defined.

(** C6 (as stated, refuted): softmax raises on a plain 1-dimensional
    score vector. *)
Lemma softmax_vector_counterexample :
  softmax (Array1 [9.27; 3.97; 1.48; 9.29]) = Raise IndexError.
Proof. reflexivity. Qed.

(** C6 (amended): on arrays of the walkthrough's ranks and of matching
    sizes the operations of the scoring sequence up to the weighted
    annotations return a value: single_dot_attention_score on two
    vectors of one length, dot_attention_score on the column d[:,None]
    and an n x m matrix, softmax on a rank-2 array with one row,
    apply_attention_scores on a tensor with one row of m weights and an
    n x m matrix; softmax raises on every rank-1 array. *)
Theorem scoring_sequence_total
  (d e s w v : list R) (A : list (list R)) (n m : nat) :
  (0 < n)%nat -> length d = n -> length e = n ->
  has_shape A n m -> length w = m ->
  returns (single_dot_attention_score (Array1 d) (Array1 e)) /\
  returns (dot_attention_score (newaxis_col d) (Array2 A)) /\
  returns (softmax (Array2 [s])) /\
  returns (apply_attention_scores (Torch (Array2 [w])) (Array2 A)) /\
  raises (softmax (Array1 v)).
Proof.
  intros Hn Hd He HA Hw. repeat split.
  - eexists. apply single_dot_attention_score_vectors. congruence.
  - eexists. exact (dot_attention_score_row d A n m Hn Hd HA).
  - eexists. apply softmax_row.
  - eexists. unfold apply_attention_scores.
    rewrite (np_broadcast_row_mult w A n m Hw HA Hn). reflexivity.
  - eexists. apply softmax_vector.
Qed.

Lemma scoring_sequence_total_witness :
  returns (single_dot_attention_score (Array1 dec_hidden_state)
                                      (Array1 annotation)) /\
  returns (dot_attention_score (newaxis_col dec_hidden_state)
             (Array2 [[1; 2; 3; 4]; [5; 6; 7; 8]; [9; 10; 11; 12]])) /\
  returns (softmax (Array2 [[9.27; 3.97; 1.48; 9.29]])) /\
  returns (apply_attention_scores (Torch (Array2 [[0.25; 0.25; 0.25; 0.25]]))
             (Array2 [[1; 2; 3; 4]; [5; 6; 7; 8]; [9; 10; 11; 12]])) /\
  raises (softmax (Array1 [9.27; 3.97; 1.48; 9.29])).
Proof.
  apply (scoring_sequence_total dec_hidden_state annotation
           [9.27; 3.97; 1.48; 9.29] [0.25; 0.25; 0.25; 0.25]
           [9.27; 3.97; 1.48; 9.29]
           [[1; 2; 3; 4]; [5; 6; 7; 8]; [9; 10; 11; 12]] 3 4).
  - lia.
  - reflexivity.
  - reflexivity.
  - split; [reflexivity|repeat constructor].
  - reflexivity.
Defined.

(** C8: in the walkthrough the decoder state has 3 entries, the single
    annotation has 3 entries, the annotation matrix has 3 rows and 4
    columns (4 annotations of 3 entries each), the raw scores and the
    attention weights have 4 entries each, and the weighted annotations
    are a 3 x 4 tensor. *)
Theorem walkthrough_shapes :
  shape (Array1 dec_hidden_state) = [3%nat] /\
  shape (Array1 annotation) = [3%nat] /\
  (exists A, annotations = Ok (Array2 A) /\ has_shape A 3 4 /\
             shape (Array2 (transpose A)) = [4%nat; 3%nat]) /\
  (exists raw, attention_weights_raw = Ok raw /\
               shape raw = [1%nat; 4%nat] /\ length (entries raw) = 4%nat) /\
  (exists w, attention_weights = Ok w /\
             shape w = [1%nat; 4%nat] /\ length (entries w) = 4%nat) /\
  (exists a, applied_attention = Ok (Torch a) /\ shape a = [3%nat; 4%nat]).
Proof.
  split; [reflexivity|]. split; [reflexivity|].
  split.
  { eexists. split; [exact annotations_value|].
    split; [exact annotations_shape|reflexivity]. }
  split.
  { eexists. split; [reflexivity|]. split; reflexivity. }
  split.
  { eexists. split; [reflexivity|]. split; reflexivity. }
  eexists. split; reflexivity.
Qed.

(** Scoring all annotations at once and one by one, for any sizes. *)
Lemma dot_attention_score_entries (d : list R) (A : list (list R)) (n m : nat) :
  (0 < n)%nat -> length d = n -> has_shape A n m ->
  exists scores,
    dot_attention_score (newaxis_col d) (Array2 A) = Ok (Array2 [scores]) /\
    dot_attention_score (Array1 d) (Array2 A) = Ok (Array1 scores) /\
    length scores = m /\
    forall i, (i < m)%nat ->
      single_dot_attention_score (Array1 d) (Array1 (column i A))
      = Ok (Scalar (nth i scores 0)).
Proof.
  intros Hn Hd HA.
  exists (map (fun j => dot d (column j A)) (seq 0 m)).
  split; [exact (dot_attention_score_row d A n m Hn Hd HA)|].
  split; [exact (dot_attention_score_vector d A n m Hn Hd HA)|].
  split; [rewrite length_map, length_seq; reflexivity|].
  intros i Hi.
  rewrite (nth_map_seq _ _ 0 _ _ Hi).
  apply single_dot_attention_score_vectors.
  rewrite length_column. destruct HA. congruence.
Qed.

(** C9: for a decoder state d of 3 entries and a 3 x 4 annotation matrix
    A, dot_attention_score returns 4 scores (one row of 4 for the column
    d[:,None], a vector of 4 for d itself), and score i is what
    single_dot_attention_score returns for d and column i of A. *)
Theorem dot_attention_score_agrees_with_single (d : list R) (A : list (list R)) :
  length d = 3%nat -> has_shape A 3 4 ->
  exists scores,
    dot_attention_score (newaxis_col d) (Array2 A) = Ok (Array2 [scores]) /\
    dot_attention_score (Array1 d) (Array2 A) = Ok (Array1 scores) /\
    length scores = 4%nat /\
    forall i, (i < 4)%nat ->
      single_dot_attention_score (Array1 d) (Array1 (column i A))
      = Ok (Scalar (nth i scores 0)).
Proof.
  intros Hd HA. apply (dot_attention_score_entries d A 3 4); [lia|exact Hd|exact HA].
Qed.

Lemma dot_attention_score_agrees_with_single_witness :
  exists scores,
    dot_attention_score (newaxis_col dec_hidden_state)
      (Array2 [[3 / 10; 59 / 10; 1 / 10; 4 / 10];
               [12 / 10; 2 / 10; 43 / 10; 3 / 10];
               [45 / 10; 5 / 10; 5 / 10; 45.3 / 10]])
    = Ok (Array2 [scores]) /\
    dot_attention_score (Array1 dec_hidden_state)
      (Array2 [[3 / 10; 59 / 10; 1 / 10; 4 / 10];
               [12 / 10; 2 / 10; 43 / 10; 3 / 10];
               [45 / 10; 5 / 10; 5 / 10; 45.3 / 10]])
    = Ok (Array1 scores) /\
    length scores = 4%nat /\
    forall i, (i < 4)%nat ->
      single_dot_attention_score (Array1 dec_hidden_state)
        (Array1 (column i [[3 / 10; 59 / 10; 1 / 10; 4 / 10];
                           [12 / 10; 2 / 10; 43 / 10; 3 / 10];
                           [45 / 10; 5 / 10; 5 / 10; 45.3 / 10]]))
      = Ok (Scalar (nth i scores 0)).
Proof.
  apply dot_attention_score_agrees_with_single;
    [reflexivity|exact annotations_shape].
Defined.

(** *** The context vector as a convex combination *)

Lemma fold_Rmin_le (l : list R) (init x : R) :
  In x l -> fold_right Rmin init l <= x.
Proof.
  induction l as [|a l IH]; intros Hx; [contradiction|].
  cbn [fold_right]. destruct Hx as [->|Hx].
  - apply Rmin_l.
  - eapply Rle_trans; [apply Rmin_r|apply IH; exact Hx].
Qed.

Lemma fold_Rmax_ge (l : list R) (init x : R) :
  In x l -> x <= fold_right Rmax init l.
Proof.
  induction l as [|a l IH]; intros Hx; [contradiction|].
  cbn [fold_right]. destruct Hx as [->|Hx].
  - apply Rmax_l.
  - eapply Rle_trans; [apply IH; exact Hx|apply Rmax_r].
Qed.

Lemma list_min_le (l : list R) (x : R) : In x l -> list_min l <= x.
Proof. apply fold_Rmin_le. Qed.

Lemma list_max_ge (l : list R) (x : R) : In x l -> x <= list_max l.
Proof. apply fold_Rmax_ge. Qed.

(** A sum with non-negative weights lies between the bounds of its
    terms, scaled by the sum of the weights. *)
Lemma dot_between (w a : list R) (lo hi : R) :
  length w = length a ->
  (forall x, In x w -> 0 <= x) ->
  (forall x, In x a -> lo <= x <= hi) ->
  lo * sum_list w <= dot w a <= hi * sum_list w.
Proof.
  revert a. induction w as [|x w IH]; intros [|y a] Hlen Hw Ha;
    try discriminate.
  - unfold dot. cbn. lra.
  - unfold dot in *. cbn [combine map fst snd]. rewrite !sum_list_cons.
    assert (Hx : 0 <= x) by (apply Hw; left; reflexivity).
    assert (Hy : lo <= y <= hi) by (apply Ha; left; reflexivity).
    specialize (IH a).
    assert (IH' : lo * sum_list w
                  <= sum_list (map (fun p => fst p * snd p) (combine w a))
                  <= hi * sum_list w).
    { apply IH.
      - cbn in Hlen. lia.
      - intros z Hz. apply Hw. right. exact Hz.
      - intros z Hz. apply Ha. right. exact Hz. }
    nra.
Qed.

Lemma sum_upto_dot (w a : list R) (m : nat) :
  length w = m -> length a = m ->
  sum_upto m (fun i => nth i w 0 * nth i a 0) = dot w a.
Proof.
  intros Hw Ha. rewrite dot_sum_upto by congruence. rewrite Hw. reflexivity.
Qed.

(** Weights that are non-negative and sum to 1, applied to an n x m
    matrix and summed along the rows. *)
Lemma context_between (w : list R) (A : list (list R)) (n m : nat) :
  (0 < n)%nat -> length w = m -> has_shape A n m ->
  (forall x, In x w -> 0 <= x) -> sum_list w = 1 ->
  exists applied c,
    apply_attention_scores (Torch (Array2 [w])) (Array2 A)
    = Ok (Torch applied) /\
    calculate_attention_vector (NumPy applied) = Ok (Array1 c) /\
    length c = n /\
    forall k, (k < n)%nat ->
      list_min (nth k A []) <= nth k c 0 <= list_max (nth k A []).
Proof.
  intros Hn Hw HA Hpos Hsum.
  eexists. eexists. unfold apply_attention_scores.
  rewrite (np_broadcast_row_mult w A n m Hw HA Hn). cbn [bind].
  split; [reflexivity|].
  split; [reflexivity|].
  split; [rewrite !length_map, length_seq; reflexivity|].
  intros k Hk. rewrite map_map.
  rewrite (nth_map_seq _ _ 0 _ _ Hk).
  fold (sum_upto m (fun i => nth i w 0 * get2 A k i)).
  unfold get2.
  pose proof (has_shape_nth A n m k HA Hk) as Hrow.
  rewrite (sum_upto_dot w (nth k A []) m Hw Hrow).
  pose proof (dot_between w (nth k A []) (list_min (nth k A []))
                (list_max (nth k A []))) as Hb.
  rewrite Hsum in Hb. rewrite !Rmult_1_r in Hb.
  apply Hb; [congruence|exact Hpos|].
  intros x Hx. split; [apply list_min_le|apply list_max_ge]; exact Hx.
Qed.

(** C10 (the code misses the claim): for every score row s of m >= 1
    entries and every n x m annotation matrix A, softmax returns a row
    of weights and apply_attention_scores returns the tensor of the
    weighted annotations, but calculate_attention_vector raises
    TypeError on that tensor: the code produces no context vector.  On
    the NumPy array with the same entries calculate_attention_vector
    returns a vector of n entries whose component k lies between the
    least and the greatest entry of row k of A, as the claim says of
    the context vector (over the reals). *)
Theorem context_vector_type_error (s : list R) (A : list (list R))
  (n m : nat) :
  (0 < n)%nat -> s <> [] -> length s = m -> has_shape A n m ->
  exists w applied c,
    softmax (Array2 [s]) = Ok (Array2 [w]) /\
    apply_attention_scores (Torch (Array2 [w])) (Array2 A)
    = Ok (Torch applied) /\
    calculate_attention_vector (Torch applied) = Raise TypeError /\
    calculate_attention_vector (NumPy applied) = Ok (Array1 c) /\
    length c = n /\
    forall k, (k < n)%nat ->
      list_min (nth k A []) <= nth k c 0 <= list_max (nth k A []).
Proof.
  intros Hn Hs Hm HA.
  set (w := map (fun x => exp x / sum_list (map exp s)) s).
  assert (Hw : length w = m) by (unfold w; rewrite length_map; exact Hm).
  assert (Hpos : forall x, In x w -> 0 < x) by (apply softmax_row_pos).
  assert (Hsum : sum_list w = 1) by (apply normalized_exp_sum; exact Hs).
  destruct (context_between w A n m Hn Hw HA)
    as [applied [c [Ha [Hc [Hlen Hb]]]]];
    [intros x Hx; apply Rlt_le, Hpos, Hx|exact Hsum|].
  exists w, applied, c. split; [apply softmax_row|].
  split; [exact Ha|]. split; [reflexivity|].
  split; [exact Hc|]. split; [exact Hlen|exact Hb].
Qed.

Lemma context_vector_type_error_witness :
  exists w applied c,
    softmax (Array2 [[9.27; 3.97; 1.48; 9.29]]) = Ok (Array2 [w]) /\
    apply_attention_scores (Torch (Array2 [w]))
      (Array2 [[3 / 10; 59 / 10; 1 / 10; 4 / 10];
               [12 / 10; 2 / 10; 43 / 10; 3 / 10];
               [45 / 10; 5 / 10; 5 / 10; 45.3 / 10]])
    = Ok (Torch applied) /\
    calculate_attention_vector (Torch applied) = Raise TypeError /\
    calculate_attention_vector (NumPy applied) = Ok (Array1 c) /\
    length c = 3%nat /\
    forall k, (k < 3)%nat ->
      list_min (nth k [[3 / 10; 59 / 10; 1 / 10; 4 / 10];
                       [12 / 10; 2 / 10; 43 / 10; 3 / 10];
                       [45 / 10; 5 / 10; 5 / 10; 45.3 / 10]] [])
      <= nth k c 0
      <= list_max (nth k [[3 / 10; 59 / 10; 1 / 10; 4 / 10];
                          [12 / 10; 2 / 10; 43 / 10; 3 / 10];
                          [45 / 10; 5 / 10; 5 / 10; 45.3 / 10]] []).
Proof.
  apply (context_vector_type_error [9.27; 3.97; 1.48; 9.29] _ 3 4).
  - lia.
  - discriminate.
  - reflexivity.
  - exact annotations_shape.
Defined.

End AttentionFacts.

(** ** Part 3: what the notebook calls logits, and the training loop *)

Module TrainingFacts.

Import Arrays ArraysFacts Training.
Open Scope R_scope.

Lemma forward_app (l1 l2 : list layer) (x : tensor2) :
  forward (l1 ++ l2) x = (y <- forward l1 x ;; forward l2 y).
Proof.
  revert x. induction l1 as [|l l1 IH]; intros x; cbn [app forward bind].
  - reflexivity.
  - destruct (layer_forward l x) as [y|e]; cbn [bind]; [apply IH|reflexivity].
Qed.

Lemma rows_length_forallb (x : tensor2) (n : nat) :
  Forall (fun row => length row = n) x ->
  forallb (fun row => length row =? n) x = true.
Proof.
  intros H. apply forallb_forall. rewrite Forall_forall in H.
  intros row Hrow. apply Nat.eqb_eq, H, Hrow.
Qed.

(** A [Linear] layer maps rows of in_features entries to rows of
    out_features entries. *)
Lemma linear_forward_shape (i o : nat) (W : tensor2) (b : list R) (x : tensor2) :
  has_shape W o i -> length b = o ->
  Forall (fun row => length row = i) x ->
  exists y, linear_forward i W b x = Ok y /\
            Forall (fun row => length row = o) y /\ length y = length x.
Proof.
  intros [HW _] Hb Hx. unfold linear_forward.
  rewrite (rows_length_forallb x i Hx).
  eexists. split; [reflexivity|]. split.
  - apply Forall_forall. intros row Hrow.
    apply in_map_iff in Hrow. destruct Hrow as [r [<- _]].
    rewrite length_map, length_combine, HW, Hb. apply Nat.min_id.
  - apply length_map.
Qed.

Lemma relu_shape (x : tensor2) (n : nat) :
  Forall (fun row => length row = n) x ->
  Forall (fun row => length row = n) (relu x) /\ length (relu x) = length x.
Proof.
  intros H. unfold relu. split; [|apply length_map].
  apply Forall_forall. intros row Hrow.
  apply in_map_iff in Hrow. destruct Hrow as [r [<- Hr]].
  rewrite length_map. rewrite Forall_forall in H. apply H, Hr.
Qed.

(** The network without [LogSoftmax] returns, for rows of 784 entries,
    rows of 10 entries: what its last [Linear] layer computes. *)
Lemma logits_cross_entropy_shape (p : parameters) (images : tensor2) :
  wf_parameters p ->
  Forall (fun row => length row = 784%nat) images ->
  exists h z,
    logits_cross_entropy p images = Ok z /\
    linear_forward 64 (W3 p) (b3 p) h = Ok z /\
    Forall (fun row => length row = 10%nat) z /\ length z = length images.
Proof.
  intros [[HW1 Hb1] [[HW2 Hb2] [HW3 Hb3]]] Hx.
  destruct (linear_forward_shape 784 128 _ _ _ HW1 Hb1 Hx) as [y1 [E1 [S1 L1]]].
  destruct (relu_shape y1 128 S1) as [S1' L1'].
  destruct (linear_forward_shape 128 64 _ _ _ HW2 Hb2 S1') as [y2 [E2 [S2 L2]]].
  destruct (relu_shape y2 64 S2) as [S2' L2'].
  destruct (linear_forward_shape 64 10 _ _ _ HW3 Hb3 S2') as [y3 [E3 [S3 L3]]].
  exists (relu y2), y3.
  unfold logits_cross_entropy, model_cross_entropy.
  cbn [forward layer_forward bind].
  rewrite E1. cbn [bind]. rewrite E2. cbn [bind]. rewrite E3. cbn [bind].
  repeat split; try assumption. congruence.
Qed.

(** The network with [LogSoftmax] returns the log-softmax of what the
    network without it returns. *)
Lemma logits_log_softmax_eq (p : parameters) (images : tensor2) :
  logits_log_softmax p images
  = (z <- logits_cross_entropy p images ;; Ok (log_softmax z)).
Proof.
  unfold logits_log_softmax, logits_cross_entropy.
  change (model_log_softmax p) with (model_cross_entropy p ++ [LogSoftmax 1]).
  rewrite forward_app.
  destruct (forward (model_cross_entropy p) images); reflexivity.
Qed.




(** *** The all-zero instance *)





Lemma zero_rows_length (n k : nat) :
  Forall (fun row => length row = n) (repeat (repeat 0 n) k).
Proof.
  apply Forall_forall. intros row Hrow.
  apply repeat_spec in Hrow. subst row. apply repeat_length.
Qed.


Lemma wf_zero_parameters : wf_parameters zero_parameters.
Proof.
  unfold wf_parameters, zero_parameters, has_shape. cbn [W1 b1 W2 b2 W3 b3].
  rewrite !repeat_length.
  repeat split; try reflexivity; apply zero_rows_length.
Qed.






(** *** The training loop *)

Section LoopFacts.

Variable batch : Type.
Variable output : Type.
Variable model_fn : (nat -> R) -> batch -> output.
Variable criterion_fn : output -> batch -> R.
Variable loss_gradient : (nat -> R) -> batch -> nat -> R.


(** One pass: the five calls in their order, the loss added to the
    running loss, and a step along the gradient of this batch alone,
    whatever [.grad] held before. *)
Lemma training_pass_effect (st : state batch) (running_loss : R) (b : batch) :
  let acc := training_pass model_fn criterion_fn loss_gradient (st, running_loss) b in
  calls (fst acc) = calls st ++ pass_calls b /\
  snd acc = running_loss + criterion_fn (model_fn (weights st) b) b /\
  (forall i, weights (fst acc) i
             = weights st i - lr * loss_gradient (weights st) b i) /\
  exists g, grad (fst acc) = Some g /\
            forall i, g i = loss_gradient (weights st) b i.
Proof.
  unfold training_pass, model_call, criterion_call,
    zero_grad, backward, step, pass_calls.
  cbn [fst snd weights grad calls item loss_graph out_graph out_value
       graph_weights graph_batch].
  split; [rewrite <- !app_assoc; reflexivity|].
  split; [reflexivity|].
  destruct (grad st) as [g0|].
  - split; [intros i; rewrite Rplus_0_l; reflexivity|].
    eexists. split; [reflexivity|]. intros i. cbn. lra.
  - split; [intros i; reflexivity|].
    eexists. split; [reflexivity|]. intros i. reflexivity.
Qed.

Lemma fold_training_pass_calls (bs : list batch) (st : state batch) (rl : R) :
  calls (fst (fold_left (training_pass model_fn criterion_fn loss_gradient) bs (st, rl)))
  = calls st ++ concat (map pass_calls bs).
Proof.
  revert st rl. induction bs as [|b bs IH]; intros st rl; cbn [fold_left map concat].
  - rewrite app_nil_r. reflexivity.
  - destruct (training_pass_effect st rl b) as [Hc _].
    destruct (training_pass model_fn criterion_fn loss_gradient (st, rl) b) as [st' rl'] eqn:E.
    cbn [fst] in Hc. rewrite IH, Hc, <- app_assoc. reflexivity.
Qed.

Lemma epoch_calls (bs : list batch) (st : state batch) (printed : list R) :
  calls (fst (epoch model_fn criterion_fn loss_gradient bs (st, printed)))
  = calls st ++ concat (map pass_calls bs).
Proof.
  unfold epoch.
  pose proof (fold_training_pass_calls bs st 0) as H.
  destruct (fold_left (training_pass model_fn criterion_fn loss_gradient) bs (st, 0)) as [st' rl].
  exact H.
Qed.

Lemma fold_epoch_calls (trainloader : nat -> list batch) (es : list nat)
  (st : state batch) (printed : list R) :
  calls (fst (fold_left
                (fun acc e =>
                   epoch model_fn criterion_fn loss_gradient (trainloader e) acc)
                es (st, printed)))
  = calls st ++ concat (map pass_calls (concat (map trainloader es))).
Proof.
  revert st printed.
  induction es as [|e es IH]; intros st printed; cbn [fold_left map concat].
  - rewrite app_nil_r. reflexivity.
  - pose proof (epoch_calls (trainloader e) st printed) as H.
    destruct (epoch model_fn criterion_fn loss_gradient (trainloader e)
                (st, printed)) as [st' printed'].
    cbn [fst] in H.
    rewrite IH, H, map_app, concat_app, app_assoc. reflexivity.
Qed.

(** In a sequence of passes, what comes just before a step. *)
Lemma step_after_backward (bs : list batch) (pre post : list (event batch)) :
  concat (map pass_calls bs) = pre ++ EvStep :: post ->
  exists pre' b,
    pre = pre' ++ [EvForward b; EvCriterion b; EvZeroGrad; EvBackward b].
Proof.
  revert pre. induction bs as [|b bs IH]; intros pre H; cbn [map concat] in H.
  - destruct pre; discriminate.
  - unfold pass_calls in H at 1. cbn [app] in H.
    destruct pre as [|e1 [|e2 [|e3 [|e4 [|e5 pre]]]]]; cbn [app] in H;
      try discriminate.
    + exists [], b. injection H as <- <- <- <- _. reflexivity.
    + injection H as <- <- <- <- <- H.
      destruct (IH pre H) as [pre' [b' ->]].
      exists (pass_calls b ++ pre'), b'. reflexivity.
Qed.

(** In a sequence of passes, what comes just before a backward pass. *)
Lemma backward_after_zero_grad (bs : list batch) (pre post : list (event batch))
  (b : batch) :
  concat (map pass_calls bs) = pre ++ EvBackward b :: post ->
  exists pre', pre = pre' ++ [EvForward b; EvCriterion b; EvZeroGrad].
Proof.
  revert pre. induction bs as [|b0 bs IH]; intros pre H; cbn [map concat] in H.
  - destruct pre; discriminate.
  - unfold pass_calls in H at 1. cbn [app] in H.
    destruct pre as [|e1 [|e2 [|e3 [|e4 [|e5 pre]]]]]; cbn [app] in H;
      try discriminate.
    + exists []. injection H as <- <- <- -> _. reflexivity.
    + injection H as <- <- <- <- <- H.
      destruct (IH pre H) as [pre' ->].
      exists (pass_calls b0 ++ pre'). reflexivity.
Qed.

(** C7: the calls the training loop makes are, for each batch of each
    epoch in turn, the forward pass, the criterion, zero_grad, backward
    and step, in this order; so the four calls before any step are the
    forward pass and the loss of a batch, zero_grad, and the backward
    pass of that batch; and a pass moves every parameter by lr times the
    gradient of the loss of its own batch at the parameters of its
    forward pass, whatever gradient was accumulated before. *)
Theorem training_loop_order (epochs : nat) (trainloader : nat -> list batch)
  (st : state batch) :
  let batches := concat (map trainloader (seq 0 epochs)) in
  calls (fst (train model_fn criterion_fn loss_gradient epochs trainloader st))
  = calls st ++ concat (map pass_calls batches) /\
  (forall pre post,
      concat (map pass_calls batches) = pre ++ EvStep :: post ->
      exists pre' b,
        pre = pre' ++ [EvForward b; EvCriterion b; EvZeroGrad;
                       EvBackward b]) /\
  (forall pre post b,
      concat (map pass_calls batches) = pre ++ EvBackward b :: post ->
      exists pre', pre = pre' ++ [EvForward b; EvCriterion b; EvZeroGrad]) /\
  (forall (st0 : state batch) (running_loss : R) (b : batch),
      calls (fst (training_pass model_fn criterion_fn loss_gradient (st0, running_loss) b))
      = calls st0 ++ pass_calls b /\
      (forall i,
          weights (fst (training_pass model_fn criterion_fn loss_gradient
                          (st0, running_loss) b)) i
          = weights st0 i - lr * loss_gradient (weights st0) b i) /\
      exists g,
        grad (fst (training_pass model_fn criterion_fn loss_gradient
                     (st0, running_loss) b)) = Some g /\
        forall i, g i = loss_gradient (weights st0) b i).
Proof.
  cbv zeta. split; [apply fold_epoch_calls|].
  split; [apply step_after_backward|].
  split; [apply backward_after_zero_grad|].
  intros st0 rl b.
  destruct (training_pass_effect st0 rl b) as [Hc [_ [Hw Hg]]].
  split; [exact Hc|]. split; [exact Hw|exact Hg].
Qed.

End LoopFacts.

End TrainingFacts.

(** ** Part 6: state dicts and checkpoints *)

Module CheckpointFacts.

Import Checkpoint.
Open Scope string_scope.

(** *** Parameter names *)

Lemma no_dot_string_of_uint (d : Decimal.uint) :
  no_dot (NilEmpty.string_of_uint d).
Proof.
  induction d; cbn; try exact I; (split; [discriminate|assumption]).
Qed.

Lemma string_of_nat_inj (i j : nat) :
  string_of_nat i = string_of_nat j -> i = j.
Proof.
  unfold string_of_nat. intros H.
  apply DecimalNat.Unsigned.to_uint_inj.
  assert (E : Some (Nat.to_uint i) = Some (Nat.to_uint j)).
  { rewrite <- !NilEmpty.usu, H. reflexivity. }
  injection E as E. exact E.
Qed.

(** Numerals followed by a dot: the first dot ends the numeral. *)
Lemma numeral_dot_inj (s t a b : string) :
  no_dot s -> no_dot t ->
  (s ++ ".") ++ a = (t ++ ".") ++ b -> s = t /\ a = b.
Proof.
  revert t. induction s as [|c s IH]; intros [|c' t] Hs Ht H; cbn in *.
  - injection H as H. split; [reflexivity|exact H].
  - injection H as Hc _. destruct Ht as [Ht _]. congruence.
  - injection H as Hc _. destruct Hs as [Hs _]. congruence.
  - injection H as Hc H. destruct Hs as [_ Hs]. destruct Ht as [_ Ht].
    destruct (IH t Hs Ht H) as [-> ->]. subst c'. split; reflexivity.
Qed.

Lemma hidden_key_inj (i j : nat) (a b : string) :
  hidden_prefix i ++ a = hidden_prefix j ++ b -> i = j /\ a = b.
Proof.
  unfold hidden_prefix. cbn [append]. intros H.
  injection H as H.
  apply numeral_dot_inj in H; try apply no_dot_string_of_uint.
  destruct H as [H ->]. split; [apply string_of_nat_inj, H|reflexivity].
Qed.

Lemma hidden_key_not_output (i : nat) (a b : string) :
  hidden_prefix i ++ a <> output_prefix ++ b.
Proof. unfold hidden_prefix, output_prefix. cbn [append]. discriminate. Qed.

Lemma hidden_key_eqb (i j : nat) (a b : string) :
  String.eqb (hidden_prefix i ++ a) (hidden_prefix j ++ b)
  = (i =? j)%nat && String.eqb a b.
Proof.
  destruct (String.eqb_spec (hidden_prefix i ++ a) (hidden_prefix j ++ b)) as [H|H].
  - apply hidden_key_inj in H. destruct H as [-> ->].
    rewrite Nat.eqb_refl, String.eqb_refl. reflexivity.
  - destruct (Nat.eqb_spec i j) as [->|Hij]; [|reflexivity].
    destruct (String.eqb_spec a b) as [->|Hab]; [|reflexivity].
    congruence.
Qed.

Lemma hidden_output_eqb (i : nat) (a b : string) :
  String.eqb (hidden_prefix i ++ a) (output_prefix ++ b) = false.
Proof. apply String.eqb_neq, hidden_key_not_output. Qed.

(** *** Looking parameters up in a state dict *)

Open Scope list_scope.

Lemma lookup_app_r (key : string) (sd1 sd2 : state_dict_t) :
  lookup key sd1 = None -> lookup key (sd1 ++ sd2) = lookup key sd2.
Proof.
  induction sd1 as [|[k u] sd1 IH]; cbn; [reflexivity|].
  destruct (String.eqb key k); [discriminate|exact IH].
Qed.

Lemma lookup_not_in (key : string) (sd : state_dict_t) :
  ~ In key (keys sd) -> lookup key sd = None.
Proof.
  induction sd as [|[k u] sd IH]; cbn; intros H; [reflexivity|].
  destruct (String.eqb_spec key k) as [->|_]; [tauto|].
  apply IH. tauto.
Qed.

(** The names of the hidden layers number i0, i0+1, ... *)
Lemma keys_hidden_state (ls : list Linear) (i0 : nat) :
  keys (hidden_state i0 ls)
  = flat_map (fun j => [weight_key (hidden_prefix j); bias_key (hidden_prefix j)])
             (seq i0 (length ls)).
Proof.
  revert i0. induction ls as [|l ls IH]; intros i0; cbn; [reflexivity|].
  f_equal. f_equal. apply IH.
Qed.

Lemma in_keys_hidden_state (ls : list Linear) (i0 : nat) (key : string) :
  In key (keys (hidden_state i0 ls)) <->
  exists j, (i0 <= j < i0 + length ls)%nat /\
            (key = weight_key (hidden_prefix j) \/ key = bias_key (hidden_prefix j)).
Proof.
  rewrite keys_hidden_state, in_flat_map. split.
  - intros [j [Hj Hk]]. apply in_seq in Hj. exists j. split; [lia|].
    destruct Hk as [Hk|[Hk|[]]]; [left|right]; symmetry; exact Hk.
  - intros [j [Hj Hk]]. exists j. split; [apply in_seq; lia|].
    destruct Hk as [Hk|Hk]; [left|right; left]; symmetry; exact Hk.
Qed.

Lemma keys_state_dict (m : Network) :
  keys (state_dict m)
  = keys (hidden_state 0 (hidden_layers m))
    ++ [weight_key output_prefix; bias_key output_prefix].
Proof. unfold state_dict, keys. rewrite map_app. reflexivity. Qed.

(** The parameters of hidden layer k are found under its names. *)
Lemma lookup_hidden_found (ls : list Linear) (i0 k : nat) (l : Linear)
  (rest : state_dict_t) :
  nth_error ls k = Some l ->
  lookup (weight_key (hidden_prefix (i0 + k))) (hidden_state i0 ls ++ rest)
  = Some (weight l) /\
  lookup (bias_key (hidden_prefix (i0 + k))) (hidden_state i0 ls ++ rest)
  = Some (bias l).
Proof.
  revert i0 k. induction ls as [|l0 ls IH]; intros i0 k H.
  - destruct k; discriminate.
  - cbn [hidden_state linear_state app lookup].
    unfold weight_key, bias_key. rewrite !hidden_key_eqb.
    destruct k as [|k]; cbn [nth_error] in H.
    + injection H as ->. rewrite Nat.add_0_r, Nat.eqb_refl. cbn. auto.
    + replace (i0 + S k =? i0)%nat with false
        by (symmetry; apply Nat.eqb_neq; lia).
      cbn [andb]. replace (i0 + S k)%nat with (S i0 + k)%nat by lia.
      apply IH, H.
Qed.

(** A layer number outside the hidden layers is not found among them. *)
Lemma lookup_hidden_skip (ls : list Linear) (i0 j : nat) (a : string)
  (rest : state_dict_t) :
  (j < i0 \/ i0 + length ls <= j)%nat ->
  lookup ((hidden_prefix j ++ a)%string) (hidden_state i0 ls ++ rest)
  = lookup ((hidden_prefix j ++ a)%string) rest.
Proof.
  intros Hj. apply lookup_app_r, lookup_not_in.
  rewrite in_keys_hidden_state. unfold weight_key, bias_key.
  intros [j' [Hj' [H|H]]]; apply hidden_key_inj in H; lia.
Qed.

Lemma lookup_output_skip (ls : list Linear) (i0 : nat) (a : string)
  (rest : state_dict_t) :
  lookup ((output_prefix ++ a)%string) (hidden_state i0 ls ++ rest)
  = lookup ((output_prefix ++ a)%string) rest.
Proof.
  apply lookup_app_r, lookup_not_in.
  rewrite in_keys_hidden_state. unfold weight_key, bias_key.
  intros [j [_ [H|H]]]; symmetry in H; exact (hidden_key_not_output _ _ _ H).
Qed.

Lemma lookup_state_dict_hidden (m : Network) (j : nat) :
  lookup (weight_key (hidden_prefix j)) (state_dict m)
  = option_map weight (nth_error (hidden_layers m) j) /\
  lookup (bias_key (hidden_prefix j)) (state_dict m)
  = option_map bias (nth_error (hidden_layers m) j).
Proof.
  unfold state_dict.
  destruct (nth_error (hidden_layers m) j) as [l|] eqn:E.
  - exact (lookup_hidden_found _ 0 j l _ E).
  - apply nth_error_None in E. unfold weight_key, bias_key.
    rewrite !lookup_hidden_skip by (right; cbn; exact E).
    cbn [linear_state lookup]. unfold weight_key, bias_key.
    rewrite !hidden_output_eqb. split; reflexivity.
Qed.

Lemma lookup_state_dict_output (m : Network) :
  lookup (weight_key output_prefix) (state_dict m) = Some (weight (output m)) /\
  lookup (bias_key output_prefix) (state_dict m) = Some (bias (output m)).
Proof.
  unfold state_dict, weight_key, bias_key. rewrite !lookup_output_skip.
  split; reflexivity.
Qed.

(** *** The layers of a network *)

Lemma nth_error_new_hidden (hs : list nat) (init : initializer)
  (i0 a k : nat) :
  nth_error (new_hidden init i0 a hs) k
  = option_map (new_Linear init (hidden_prefix (i0 + k)) (nth k (a :: hs) 0%nat))
               (nth_error hs k).
Proof.
  revert i0 a k. induction hs as [|h hs IH]; intros i0 a k.
  - destruct k; reflexivity.
  - destruct k as [|k]; cbn [new_hidden nth_error].
    + rewrite Nat.add_0_r. reflexivity.
    + rewrite IH. replace (S i0 + k)%nat with (i0 + S k)%nat by lia.
      reflexivity.
Qed.

Lemma length_new_hidden (hs : list nat) (init : initializer) (i0 a : nat) :
  length (new_hidden init i0 a hs) = length hs.
Proof.
  revert i0 a. induction hs as [|h hs IH]; intros i0 a; cbn; [reflexivity|].
  f_equal. apply IH.
Qed.

Lemma out_features_new_hidden (hs : list nat) (init : initializer) (i0 a : nat) :
  map out_features (new_hidden init i0 a hs) = hs.
Proof.
  revert i0 a. induction hs as [|h hs IH]; intros i0 a; cbn; [reflexivity|].
  f_equal. apply IH.
Qed.

Lemma new_Network_inv (init : initializer) (a b : nat) (hs : list nat)
  (m : Network) :
  new_Network init a b hs = Ok m ->
  hs <> [] /\
  hidden_layers m = new_hidden init 0 a hs /\
  output m = new_Linear init output_prefix (last hs 0%nat) b /\
  dropout m = 0.5%R.
Proof.
  unfold new_Network. destruct hs as [|h hs]; [discriminate|].
  intros H. injection H as <-. cbn [hidden_layers output dropout].
  repeat split. discriminate.
Qed.

(** *** Loading *)

Lemma shape_eqb_eq (s t : list nat) : shape_eqb s t = true <-> s = t.
Proof.
  unfold shape_eqb. destruct (list_eq_dec Nat.eq_dec s t); split;
    congruence.
Qed.

Lemma copy_same_shape (param input : Tensor) :
  tshape input = tshape param -> copy_ param input = input.
Proof.
  destruct param, input. unfold copy_. cbn. intros ->. reflexivity.
Qed.

Lemma load_tensor_found (sd : state_dict_t) (key : string) (param t : Tensor) :
  lookup key sd = Some t -> tshape t = tshape param ->
  load_tensor sd key param = (t, []).
Proof.
  intros Hl Hs. unfold load_tensor. rewrite Hl.
  rewrite (proj2 (shape_eqb_eq _ _) Hs), (copy_same_shape _ _ Hs).
  reflexivity.
Qed.

Lemma load_linear_new (sd : state_dict_t) (init init' : initializer)
  (prefix : string) (a h : nat) :
  lookup (weight_key prefix) sd = Some (weight (new_Linear init prefix a h)) ->
  lookup (bias_key prefix) sd = Some (bias (new_Linear init prefix a h)) ->
  load_linear sd prefix (new_Linear init' prefix a h)
  = (new_Linear init prefix a h, []).
Proof.
  intros Hw Hb. unfold load_linear.
  rewrite (load_tensor_found _ _ _ _ Hw) by reflexivity.
  rewrite (load_tensor_found _ _ _ _ Hb) by reflexivity.
  reflexivity.
Qed.

Lemma load_hidden_new (hs : list nat) (sd : state_dict_t)
  (init init' : initializer) (i0 a : nat) :
  (forall k l, nth_error (new_hidden init i0 a hs) k = Some l ->
     lookup (weight_key (hidden_prefix (i0 + k))) sd = Some (weight l) /\
     lookup (bias_key (hidden_prefix (i0 + k))) sd = Some (bias l)) ->
  load_hidden sd i0 (new_hidden init' i0 a hs) = (new_hidden init i0 a hs, []).
Proof.
  revert i0 a. induction hs as [|h hs IH]; intros i0 a H; [reflexivity|].
  cbn [new_hidden load_hidden].
  destruct (H 0%nat _ eq_refl) as [Hw Hb]. rewrite Nat.add_0_r in Hw, Hb.
  rewrite (load_linear_new sd init init' _ a h Hw Hb).
  rewrite IH; [reflexivity|].
  intros k l Hk. replace (S i0 + k)%nat with (i0 + S k)%nat by lia.
  apply H. exact Hk.
Qed.

Lemma existsb_eqb_in (key : string) (l : list string) :
  existsb (String.eqb key) l = true <-> In key l.
Proof.
  rewrite existsb_exists. split.
  - intros [k [Hk E]]. apply String.eqb_eq in E. subst. exact Hk.
  - intros H. exists key. split; [exact H|apply String.eqb_refl].
Qed.

Lemma unexpected_keys_nil (m : Network) (sd : state_dict_t) :
  unexpected_keys m sd = [] <->
  forall key, In key (keys sd) -> In key (keys (state_dict m)).
Proof.
  unfold unexpected_keys. split.
  - intros H key Hk. apply existsb_eqb_in.
    destruct (existsb (String.eqb key) (keys (state_dict m))) eqn:E;
      [reflexivity|].
    assert (Hin : In key (filter (fun k => negb (existsb (String.eqb k)
                     (keys (state_dict m)))) (keys sd))).
    { apply filter_In. split; [exact Hk|]. rewrite E. reflexivity. }
    rewrite H in Hin. contradiction.
  - intros H. induction (keys sd) as [|k ks IH]; [reflexivity|].
    cbn [filter].
    rewrite (proj2 (existsb_eqb_in k _) (H k (or_introl eq_refl))).
    cbn [negb]. apply IH. intros key Hk. apply H. right. exact Hk.
Qed.

Lemma keys_same_length (m m' : Network) :
  length (hidden_layers m) = length (hidden_layers m') ->
  keys (state_dict m) = keys (state_dict m').
Proof.
  intros H. rewrite !keys_state_dict, !keys_hidden_state, H. reflexivity.
Qed.

(** A state dict loads into a network of the same sizes, whatever the
    network held before, and leaves it equal to the network the state
    dict was taken from. *)
Lemma load_same_architecture (init init' : initializer) (a b : nat)
  (hs : list nat) (m m' : Network) :
  new_Network init a b hs = Ok m ->
  new_Network init' a b hs = Ok m' ->
  load_state_dict m' (state_dict m) = (m, Ok AllKeysMatched).
Proof.
  intros Hm Hm'.
  destruct (new_Network_inv _ _ _ _ _ Hm) as [Hhs [Hh [Ho Hd]]].
  destruct (new_Network_inv _ _ _ _ _ Hm') as [_ [Hh' [Ho' Hd']]].
  unfold load_state_dict, load_messages_and_model.
  rewrite Hh', Ho'.
  rewrite (load_hidden_new hs (state_dict m) init init' 0 a).
  2:{ intros k l Hk. cbn [Nat.add].
      destruct (lookup_state_dict_hidden m k) as [Hw Hb].
      rewrite Hw, Hb, Hh, Hk. split; reflexivity. }
  destruct (lookup_state_dict_output m) as [Hw Hb]. rewrite Ho in Hw, Hb.
  rewrite (load_linear_new _ init init' _ _ _ Hw Hb).
  assert (Hu : unexpected_keys m' (state_dict m) = []).
  { apply unexpected_keys_nil. intros key Hk.
    rewrite (keys_same_length m' m); [exact Hk|].
    rewrite Hh, Hh', !length_new_hidden. reflexivity. }
  rewrite Hu. cbn [map app]. rewrite Hd'.
  f_equal. destruct m as [mh mo md]. cbn in Hh, Ho, Hd. subst. reflexivity.
Qed.

Lemma torch_load_saved (obj : pyobject) (path : string) (fs : filesystem) :
  torch_load path (torch_save obj path fs) = Ok obj.
Proof. unfold torch_save. cbn. rewrite String.eqb_refl. reflexivity. Qed.

(** C3 (as stated, refuted): a network with 2 inputs, saved by the
    notebook's checkpoint cell, cannot be loaded back: the cell records
    the input size 784, and the rebuilt first layer does not take the
    saved weight. *)
Lemma checkpoint_roundtrip_counterexample :
  exists model,
    new_Network zeros 2 10 [3%nat] = Ok model /\
    load_checkpoint ones "checkpoint.pth" (save_checkpoint model [])
    = Raise RuntimeError.
Proof. eexists. split; reflexivity. Qed.

(** C3 (amended): for every network built with input size 784, output
    size 10 and a list of hidden-layer sizes, saving the checkpoint
    dictionary and calling load_checkpoint on the saved file returns a
    network equal to the saved one in its layers, their sizes and all
    parameter values, whatever values the rebuilt network starts with. *)
Theorem checkpoint_roundtrip (init init' : initializer) (hs : list nat)
  (model : Network) (path : string) (fs : filesystem) :
  new_Network init 784 10 hs = Ok model ->
  load_checkpoint init' path (torch_save (PyCheckpoint (checkpoint model)) path fs)
  = Ok model.
Proof.
  intros Hm. unfold load_checkpoint.
  rewrite torch_load_saved. cbn [bind].
  unfold checkpoint. cbn [input_size output_size ck_hidden_layers ck_state_dict].
  destruct (new_Network_inv _ _ _ _ _ Hm) as [Hhs [Hh _]].
  rewrite Hh, out_features_new_hidden.
  destruct (new_Network init' 784 10 hs) as [m'|e] eqn:Hm'.
  - cbn [bind].
    rewrite (load_same_architecture init init' 784 10 hs model m' Hm Hm').
    reflexivity.
  - unfold new_Network in Hm'. destruct hs; [congruence|discriminate].
Qed.

Lemma checkpoint_roundtrip_witness :
  exists model,
    new_Network zeros 784 10 [2%nat] = Ok model /\
    load_checkpoint ones "checkpoint.pth" (save_checkpoint model []) = Ok model.
Proof.
  eexists. split; [reflexivity|].
  apply (checkpoint_roundtrip zeros ones [2%nat]). reflexivity.
Defined.

(** *** What a call of [load_state_dict] reports and leaves behind *)

Lemma load_tensor_fst (sd : state_dict_t) (key : string) (param : Tensor) :
  fst (load_tensor sd key param)
  = match lookup key sd with
    | Some t => if shape_eqb (tshape t) (tshape param) then t else param
    | None => param
    end.
Proof.
  unfold load_tensor. destruct (lookup key sd) as [t|]; [|reflexivity].
  destruct (shape_eqb (tshape t) (tshape param)) eqn:E; [|reflexivity].
  apply shape_eqb_eq in E. cbn [fst]. apply copy_same_shape, E.
Qed.

Lemma load_tensor_snd_nil (sd : state_dict_t) (key : string) (param : Tensor) :
  snd (load_tensor sd key param) = [] ->
  exists t, lookup key sd = Some t /\ tshape t = tshape param.
Proof.
  unfold load_tensor. destruct (lookup key sd) as [t|]; [|discriminate].
  destruct (shape_eqb (tshape t) (tshape param)) eqn:E; [|discriminate].
  intros _. exists t. split; [reflexivity|apply shape_eqb_eq, E].
Qed.

Lemma load_linear_fst (sd : state_dict_t) (prefix : string) (l : Linear) :
  fst (load_linear sd prefix l)
  = {| in_features := in_features l; out_features := out_features l;
       weight := fst (load_tensor sd (weight_key prefix) (weight l));
       bias := fst (load_tensor sd (bias_key prefix) (bias l)) |}.
Proof.
  unfold load_linear.
  destruct (load_tensor sd (weight_key prefix) (weight l)).
  destruct (load_tensor sd (bias_key prefix) (bias l)). reflexivity.
Qed.

Lemma load_linear_snd (sd : state_dict_t) (prefix : string) (l : Linear) :
  snd (load_linear sd prefix l)
  = snd (load_tensor sd (weight_key prefix) (weight l))
    ++ snd (load_tensor sd (bias_key prefix) (bias l)).
Proof.
  unfold load_linear.
  destruct (load_tensor sd (weight_key prefix) (weight l)).
  destruct (load_tensor sd (bias_key prefix) (bias l)). reflexivity.
Qed.

Lemma load_hidden_fst_nth (sd : state_dict_t) (ls : list Linear) (i0 k : nat) :
  nth_error (fst (load_hidden sd i0 ls)) k
  = option_map (fun l => fst (load_linear sd (hidden_prefix (i0 + k)) l))
               (nth_error ls k).
Proof.
  revert i0 k. induction ls as [|l ls IH]; intros i0 k.
  - destruct k; reflexivity.
  - cbn [load_hidden].
    destruct (load_linear sd (hidden_prefix i0) l) as [l' e1] eqn:E1.
    specialize (IH (S i0)).
    destruct (load_hidden sd (S i0) ls) as [rest' e2].
    cbn [fst] in *. destruct k as [|k]; cbn [nth_error option_map].
    + rewrite Nat.add_0_r, E1. reflexivity.
    + rewrite IH. replace (S i0 + k)%nat with (i0 + S k)%nat by lia.
      reflexivity.
Qed.

Lemma load_hidden_snd_nil (sd : state_dict_t) (ls : list Linear) (i0 : nat) :
  snd (load_hidden sd i0 ls) = [] ->
  forall k l, nth_error ls k = Some l ->
    snd (load_linear sd (hidden_prefix (i0 + k)) l) = [].
Proof.
  revert i0. induction ls as [|l0 ls IH]; intros i0 H k l Hk.
  - destruct k; discriminate.
  - cbn [load_hidden] in H.
    destruct (load_linear sd (hidden_prefix i0) l0) as [l' e1] eqn:E1.
    specialize (IH (S i0)).
    destruct (load_hidden sd (S i0) ls) as [rest' e2].
    cbn [snd] in *. apply app_eq_nil in H. destruct H as [-> ->].
    destruct k as [|k]; cbn [nth_error] in Hk.
    + injection Hk as <-. rewrite Nat.add_0_r, E1. reflexivity.
    + replace (i0 + S k)%nat with (S i0 + k)%nat by lia.
      apply IH; [reflexivity|exact Hk].
Qed.

Lemma load_state_dict_fst (m : Network) (sd : state_dict_t) :
  fst (load_state_dict m sd)
  = {| hidden_layers := fst (load_hidden sd 0 (hidden_layers m));
       output := fst (load_linear sd output_prefix (output m));
       dropout := dropout m |}.
Proof.
  unfold load_state_dict, load_messages_and_model.
  destruct (load_hidden sd 0 (hidden_layers m)).
  destruct (load_linear sd output_prefix (output m)). reflexivity.
Qed.

Lemma load_state_dict_snd (m : Network) (sd : state_dict_t) :
  snd (load_state_dict m sd)
  = match map UnexpectedKey (unexpected_keys m sd)
          ++ snd (load_hidden sd 0 (hidden_layers m))
          ++ snd (load_linear sd output_prefix (output m)) with
    | [] => Ok AllKeysMatched
    | _ :: _ => Raise RuntimeError
    end.
Proof.
  unfold load_state_dict, load_messages_and_model.
  destruct (load_hidden sd 0 (hidden_layers m)).
  destruct (load_linear sd output_prefix (output m)). reflexivity.
Qed.

Lemma load_state_dict_outcome (m : Network) (sd : state_dict_t) :
  snd (load_state_dict m sd) = Ok AllKeysMatched \/
  snd (load_state_dict m sd) = Raise RuntimeError.
Proof.
  rewrite load_state_dict_snd.
  destruct (map UnexpectedKey (unexpected_keys m sd)
            ++ snd (load_hidden sd 0 (hidden_layers m))
            ++ snd (load_linear sd output_prefix (output m))); auto.
Qed.

(** A call that reports nothing was given the state dict of a network
    of the same sizes. *)
Lemma load_ok_same_sizes (init1 init2 : initializer) (a1 b1 a2 b2 : nat)
  (hs1 hs2 : list nat) (m1 m2 : Network) :
  new_Network init1 a1 b1 hs1 = Ok m1 ->
  new_Network init2 a2 b2 hs2 = Ok m2 ->
  snd (load_state_dict m2 (state_dict m1)) = Ok AllKeysMatched ->
  (a1, b1, hs1) = (a2, b2, hs2).
Proof.
  intros Hm1 Hm2 Hok.
  destruct (new_Network_inv _ _ _ _ _ Hm1) as [Hne1 [Hh1 [Ho1 _]]].
  destruct (new_Network_inv _ _ _ _ _ Hm2) as [Hne2 [Hh2 [Ho2 _]]].
  rewrite load_state_dict_snd in Hok.
  destruct (map UnexpectedKey (unexpected_keys m2 (state_dict m1))
            ++ snd (load_hidden (state_dict m1) 0 (hidden_layers m2))
            ++ snd (load_linear (state_dict m1) output_prefix (output m2)))
    eqn:E; [clear Hok|discriminate].
  apply app_eq_nil in E. destruct E as [Eu E].
  apply app_eq_nil in E. destruct E as [Eh Eo].
  apply map_eq_nil in Eu.
  (* the hidden layers of m2 found their tensors *)
  assert (H1 : forall k h2, nth_error hs2 k = Some h2 ->
             nth_error hs1 k = Some h2 /\
             nth k (a1 :: hs1) 0%nat = nth k (a2 :: hs2) 0%nat).
  { intros k h2 Hk.
    pose proof (nth_error_new_hidden hs2 init2 0 a2 k) as Hl2.
    rewrite Hk in Hl2. cbn [option_map Nat.add] in Hl2. rewrite <- Hh2 in Hl2.
    pose proof (load_hidden_snd_nil _ _ _ Eh k _ Hl2) as Hk2.
    cbn [Nat.add] in Hk2. rewrite load_linear_snd in Hk2.
    apply app_eq_nil in Hk2. destruct Hk2 as [Hw _].
    apply load_tensor_snd_nil in Hw. destruct Hw as [t [Hl Hs]].
    destruct (lookup_state_dict_hidden m1 k) as [Hw1 _].
    rewrite Hw1, Hh1, nth_error_new_hidden in Hl.
    destruct (nth_error hs1 k) as [h1|]; [|discriminate].
    cbn [option_map Nat.add] in Hl. injection Hl as <-.
    cbn in Hs. injection Hs as -> Hin. split; [reflexivity|exact Hin]. }
  (* the last hidden layer of m1 is a layer of m2 *)
  assert (H2 : (length hs1 <= length hs2)%nat).
  { assert (Hlen1 : (0 < length hs1)%nat)
      by (destruct hs1; [congruence|cbn; lia]).
    pose proof (proj1 (unexpected_keys_nil m2 (state_dict m1)) Eu
                  (weight_key (hidden_prefix (length hs1 - 1)))) as Hin.
    rewrite !keys_state_dict in Hin.
    assert (Hk : In (weight_key (hidden_prefix (length hs1 - 1)))
                    (keys (hidden_state 0 (hidden_layers m1))
                     ++ [weight_key output_prefix; bias_key output_prefix])).
    { apply in_or_app. left. apply in_keys_hidden_state.
      exists (length hs1 - 1)%nat.
      rewrite Hh1, length_new_hidden. split; [lia|left; reflexivity]. }
    specialize (Hin Hk). apply in_app_or in Hin. destruct Hin as [Hin|Hin].
    - apply in_keys_hidden_state in Hin. destruct Hin as [j [Hj Hkey]].
      rewrite Hh2, length_new_hidden in Hj.
      unfold weight_key, bias_key in Hkey.
      destruct Hkey as [Hkey|Hkey]; apply hidden_key_inj in Hkey; lia.
    - unfold weight_key, bias_key in Hin.
      destruct Hin as [Hin|[Hin|[]]]; symmetry in Hin;
        exfalso; exact (hidden_key_not_output _ _ _ Hin). }
  assert (Hhs : hs1 = hs2).
  { apply nth_error_ext. intros k.
    destruct (nth_error hs2 k) as [h2|] eqn:Hk.
    - apply (H1 k h2 Hk).
    - apply nth_error_None. apply nth_error_None in Hk. lia. }
  assert (Ha : a1 = a2).
  { destruct hs2 as [|h2 hs2']; [congruence|].
    destruct (H1 0%nat h2 eq_refl) as [_ H]. exact H. }
  assert (Hb : b1 = b2).
  { rewrite load_linear_snd in Eo. apply app_eq_nil in Eo.
    destruct Eo as [Hw _]. apply load_tensor_snd_nil in Hw.
    destruct Hw as [t [Hl Hs]].
    destruct (lookup_state_dict_output m1) as [Hw1 _].
    rewrite Hw1 in Hl. injection Hl as <-.
    rewrite Ho1, Ho2 in Hs. cbn in Hs. injection Hs as Hs _. exact Hs. }
  congruence.
Qed.

(** *** Shapes and sizes *)

Lemma lookup_shapes (key : string) (sd sd' : state_dict_t) :
  shapes sd = shapes sd' ->
  option_map tshape (lookup key sd) = option_map tshape (lookup key sd').
Proof.
  revert sd'. induction sd as [|[k t] sd IH]; intros [|[k' t'] sd'] H;
    try discriminate; [reflexivity|].
  cbn in H. injection H as -> Ht H. cbn [lookup].
  destruct (String.eqb key k'); [cbn; congruence|apply IH, H].
Qed.

Lemma length_hidden_state (ls : list Linear) (i0 : nat) :
  length (hidden_state i0 ls) = (2 * length ls)%nat.
Proof.
  revert i0. induction ls as [|l ls IH]; intros i0; cbn [hidden_state];
    [reflexivity|].
  rewrite length_app, IH. cbn. lia.
Qed.

Lemma shapes_hidden_init (hs : list nat) (init init' : initializer) (i0 a : nat) :
  shapes (hidden_state i0 (new_hidden init i0 a hs))
  = shapes (hidden_state i0 (new_hidden init' i0 a hs)).
Proof.
  revert i0 a. induction hs as [|h hs IH]; intros i0 a; [reflexivity|].
  cbn [new_hidden hidden_state]. unfold shapes in *.
  rewrite !map_app, IH. reflexivity.
Qed.

(** Networks of the same sizes have tensors of the same shapes, and
    conversely. *)
Lemma shapes_same_sizes (init1 init2 : initializer) (a1 b1 a2 b2 : nat)
  (hs1 hs2 : list nat) (m1 m2 : Network) :
  new_Network init1 a1 b1 hs1 = Ok m1 ->
  new_Network init2 a2 b2 hs2 = Ok m2 ->
  (shapes (state_dict m1) = shapes (state_dict m2)
   <-> (a1, b1, hs1) = (a2, b2, hs2)).
Proof.
  intros Hm1 Hm2.
  destruct (new_Network_inv _ _ _ _ _ Hm1) as [Hne1 [Hh1 [Ho1 _]]].
  destruct (new_Network_inv _ _ _ _ _ Hm2) as [Hne2 [Hh2 [Ho2 _]]].
  split.
  - intros H.
    assert (Hlen : length hs1 = length hs2).
    { apply (f_equal (@length _)) in H. unfold shapes, state_dict in H.
      rewrite !length_map, !length_app, !length_hidden_state in H.
      rewrite Hh1, Hh2, !length_new_hidden in H. cbn in H. lia. }
    assert (H1 : forall k h2, nth_error hs2 k = Some h2 ->
               nth_error hs1 k = Some h2 /\
               nth k (a1 :: hs1) 0%nat = nth k (a2 :: hs2) 0%nat).
    { intros k h2 Hk.
      pose proof (lookup_shapes (weight_key (hidden_prefix k)) _ _ H) as E.
      destruct (lookup_state_dict_hidden m1 k) as [E1 _].
      destruct (lookup_state_dict_hidden m2 k) as [E2 _].
      rewrite E1, E2, Hh1, Hh2, !nth_error_new_hidden, Hk in E.
      destruct (nth_error hs1 k) as [h1|]; [|discriminate].
      cbn in E. injection E as -> Hin. split; [reflexivity|exact Hin]. }
    assert (Hhs : hs1 = hs2).
    { apply nth_error_ext. intros k.
      destruct (nth_error hs2 k) as [h2|] eqn:Hk.
      - apply (H1 k h2 Hk).
      - apply nth_error_None. apply nth_error_None in Hk. lia. }
    assert (Ha : a1 = a2).
    { destruct hs2 as [|h2 hs2']; [congruence|].
      destruct (H1 0%nat h2 eq_refl) as [_ Ha]. exact Ha. }
    assert (Hb : b1 = b2).
    { pose proof (lookup_shapes (weight_key output_prefix) _ _ H) as E.
      destruct (lookup_state_dict_output m1) as [E1 _].
      destruct (lookup_state_dict_output m2) as [E2 _].
      rewrite E1, E2, Ho1, Ho2 in E. cbn in E. injection E as E _. exact E. }
    congruence.
  - intros H. injection H as <- <- <-.
    unfold state_dict, shapes. rewrite !map_app. f_equal.
    + rewrite Hh1, Hh2. apply shapes_hidden_init.
    + rewrite Ho1, Ho2. reflexivity.
Qed.

Lemma lookup_some_in_keys (key : string) (sd : state_dict_t) (t : Tensor) :
  lookup key sd = Some t -> In key (keys sd).
Proof.
  induction sd as [|[k u] sd IH]; cbn; [discriminate|].
  destruct (String.eqb_spec key k) as [->|_]; [auto|]. intros H. right. auto.
Qed.

(** Rewriting steps for a parameter of the model a call leaves behind:
    where its hidden layer or its output layer is found, and what
    [load_tensor] put there. *)
Ltac hidden_after_load j :=
  match goal with
  | |- lookup _ (state_dict ?m') = _ =>
      let Ew := fresh "Ew" in
      let Eb := fresh "Eb" in
      destruct (lookup_state_dict_hidden m' j) as [Ew Eb];
      first [rewrite Ew | rewrite Eb]; clear Ew Eb; cbn [hidden_layers]
  end.

Ltac output_after_load :=
  match goal with
  | |- lookup _ (state_dict ?m') = _ =>
      let Ew := fresh "Ew" in
      let Eb := fresh "Eb" in
      destruct (lookup_state_dict_output m') as [Ew Eb];
      first [rewrite Ew | rewrite Eb]; clear Ew Eb; cbn [output]
  end.

Ltac loaded_tensor :=
  rewrite load_linear_fst; cbn [weight bias];
  rewrite load_tensor_fst; reflexivity.

(** After a call every parameter of the model holds the tensor of the
    state dict, when its name is there with the same shape, and what it
    held before otherwise. *)
Lemma load_state_dict_parameters (m : Network) (sd : state_dict_t)
  (key : string) (t : Tensor) :
  lookup key (state_dict m) = Some t ->
  lookup key (state_dict (fst (load_state_dict m sd)))
  = Some match lookup key sd with
         | Some t1 => if shape_eqb (tshape t1) (tshape t) then t1 else t
         | None => t
         end.
Proof.
  intros Hl. pose proof (lookup_some_in_keys _ _ _ Hl) as Hin.
  rewrite keys_state_dict in Hin. apply in_app_or in Hin.
  rewrite load_state_dict_fst.
  destruct Hin as [Hin|Hin].
  - apply in_keys_hidden_state in Hin. destruct Hin as [j [_ Hkey]].
    destruct (lookup_state_dict_hidden m j) as [Ew Eb].
    destruct Hkey as [-> | ->];
      [rewrite Ew in Hl|rewrite Eb in Hl];
      (destruct (nth_error (hidden_layers m) j) as [l|] eqn:Hj;
       [|discriminate]);
      cbn in Hl; injection Hl as <-;
      hidden_after_load j; rewrite load_hidden_fst_nth, Hj;
      cbn [option_map Nat.add]; loaded_tensor.
  - destruct (lookup_state_dict_output m) as [Ew Eb].
    destruct Hin as [<-|[<-|[]]];
      [rewrite Ew in Hl|rewrite Eb in Hl];
      injection Hl as <-; output_after_load; loaded_tensor.
Qed.

Lemma load_raises_iff_sizes_differ (init1 init2 : initializer)
  (a1 b1 a2 b2 : nat) (hs1 hs2 : list nat) (m1 m2 : Network) :
  new_Network init1 a1 b1 hs1 = Ok m1 ->
  new_Network init2 a2 b2 hs2 = Ok m2 ->
  (snd (load_state_dict m2 (state_dict m1)) = Raise RuntimeError
   <-> (a1, b1, hs1) <> (a2, b2, hs2)).
Proof.
  intros Hm1 Hm2. split.
  - intros Hr Heq. injection Heq as <- <- <-.
    rewrite (load_same_architecture init1 init2 a1 b1 hs1 m1 m2 Hm1 Hm2) in Hr.
    discriminate.
  - intros Hne.
    destruct (load_state_dict_outcome m2 (state_dict m1)) as [Hok|Hr];
      [|exact Hr].
    exfalso. apply Hne.
    exact (load_ok_same_sizes init1 init2 a1 b1 a2 b2 hs1 hs2 m1 m2
             Hm1 Hm2 Hok).
Qed.

(** The names the notebook prints for [model.state_dict().keys()]. *)
Lemma notebook_state_dict_keys :
  exists m,
    new_Network zeros 784 10 [512; 256; 128]%nat = Ok m /\
    keys (state_dict m)
    = ["hidden_layers.0.weight"; "hidden_layers.0.bias";
       "hidden_layers.1.weight"; "hidden_layers.1.bias";
       "hidden_layers.2.weight"; "hidden_layers.2.bias";
       "output.weight"; "output.bias"]%string.
Proof. eexists. split; reflexivity. Qed.

(** The messages of the notebook's failing call, as its RuntimeError
    lists them: a size mismatch for every parameter but output.bias. *)
Lemma notebook_error_messages :
  exists m1 m2,
    new_Network ones 784 10 [512; 256; 128]%nat = Ok m1 /\
    new_Network zeros 784 10 [400; 200; 100]%nat = Ok m2 /\
    snd (load_messages_and_model m2 (state_dict m1))
    = [SizeMismatch "hidden_layers.0.weight";
       SizeMismatch "hidden_layers.0.bias";
       SizeMismatch "hidden_layers.1.weight";
       SizeMismatch "hidden_layers.1.bias";
       SizeMismatch "hidden_layers.2.weight";
       SizeMismatch "hidden_layers.2.bias";
       SizeMismatch "output.weight"]%string.
Proof. eexists. eexists. split; [reflexivity|]. split; reflexivity. Qed.

(** C4 (as stated, refuted): the notebook's own failing call changes
    the model.  Loading the state dict of Network(784, 10, [512, 256,
    128]) into Network(784, 10, [400, 200, 100]) raises, and yet
    output.bias, of shape (10) in both, holds the checkpoint's values
    afterwards and no longer its own. *)
Lemma load_failure_overwrites_counterexample :
  exists m1 m2,
    new_Network ones 784 10 [512; 256; 128]%nat = Ok m1 /\
    new_Network zeros 784 10 [400; 200; 100]%nat = Ok m2 /\
    snd (load_state_dict m2 (state_dict m1)) = Raise RuntimeError /\
    bias (output (fst (load_state_dict m2 (state_dict m1)))) = bias (output m1) /\
    bias (output m1) <> bias (output m2).
Proof.
  eexists. eexists.
  split; [reflexivity|]. split; [reflexivity|].
  match goal with
  | |- snd (load_state_dict ?m2 (state_dict ?m1)) = _ /\ _ =>
      set (n1 := m1); set (n2 := m2)
  end.
  assert (H1 : new_Network ones 784 10 [512; 256; 128]%nat = Ok n1)
    by reflexivity.
  assert (H2 : new_Network zeros 784 10 [400; 200; 100]%nat = Ok n2)
    by reflexivity.
  split; [|split].
  - apply (load_raises_iff_sizes_differ ones zeros 784 10 784 10
             [512; 256; 128]%nat [400; 200; 100]%nat n1 n2 H1 H2).
    intros H. injection H as H _. lia.
  - rewrite load_state_dict_fst. cbn [output].
    rewrite load_linear_fst. cbn [bias]. rewrite load_tensor_fst.
    destruct (lookup_state_dict_output n1) as [_ E]. rewrite E.
    reflexivity.
  - intros H.
    assert (E : nth 0 (tdata (bias (output n1))) 0%R
                = nth 0 (tdata (bias (output n2))) 0%R)
      by (rewrite H; reflexivity).
    change (1 = 0)%R in E. lra.
Qed.

(** C4 (amended): for two networks built from sizes, loading the state
    dict of the first into the second raises RuntimeError exactly when
    their sizes differ, which is exactly when the shapes of their
    tensors differ; when it does not raise, the second network has
    become equal to the first.  Raising or not, the call leaves the
    second network changed wherever it could copy: a parameter whose
    name is in the state dict with the same shape holds the state dict's
    tensor afterwards, and every other parameter is unchanged. *)
Theorem load_state_dict_mismatch (init1 init2 : initializer)
  (a1 b1 a2 b2 : nat) (hs1 hs2 : list nat) (m1 m2 : Network) :
  new_Network init1 a1 b1 hs1 = Ok m1 ->
  new_Network init2 a2 b2 hs2 = Ok m2 ->
  (snd (load_state_dict m2 (state_dict m1)) = Raise RuntimeError
   <-> (a1, b1, hs1) <> (a2, b2, hs2)) /\
  (snd (load_state_dict m2 (state_dict m1)) = Raise RuntimeError
   <-> shapes (state_dict m1) <> shapes (state_dict m2)) /\
  (snd (load_state_dict m2 (state_dict m1)) <> Raise RuntimeError ->
   load_state_dict m2 (state_dict m1) = (m1, Ok AllKeysMatched)) /\
  (forall key t2,
      lookup key (state_dict m2) = Some t2 ->
      lookup key (state_dict (fst (load_state_dict m2 (state_dict m1))))
      = Some match lookup key (state_dict m1) with
             | Some t1 => if shape_eqb (tshape t1) (tshape t2) then t1 else t2
             | None => t2
             end).
Proof.
  intros Hm1 Hm2.
  pose proof (load_raises_iff_sizes_differ init1 init2 a1 b1 a2 b2 hs1 hs2
                m1 m2 Hm1 Hm2) as Hiff.
  pose proof (shapes_same_sizes init1 init2 a1 b1 a2 b2 hs1 hs2 m1 m2
                Hm1 Hm2) as Hsh.
  split; [exact Hiff|]. split; [|split].
  - rewrite Hiff, Hsh. reflexivity.
  - intros Hnr.
    destruct (load_state_dict_outcome m2 (state_dict m1)) as [Hok|Hr];
      [|contradiction].
    pose proof (load_ok_same_sizes init1 init2 a1 b1 a2 b2 hs1 hs2 m1 m2
                  Hm1 Hm2 Hok) as Heq.
    injection Heq as <- <- <-.
    exact (load_same_architecture init1 init2 a1 b1 hs1 m1 m2 Hm1 Hm2).
  - intros key t2 Hl. apply load_state_dict_parameters, Hl.
Qed.

Lemma load_state_dict_mismatch_witness :
  exists m1 m2,
    new_Network ones 2 1 [3%nat] = Ok m1 /\
    new_Network zeros 2 1 [4%nat] = Ok m2 /\
    (snd (load_state_dict m2 (state_dict m1)) = Raise RuntimeError
     <-> (2, 1, [3]) <> (2, 1, [4]))%nat /\
    (snd (load_state_dict m2 (state_dict m1)) = Raise RuntimeError
     <-> shapes (state_dict m1) <> shapes (state_dict m2)) /\
    (snd (load_state_dict m2 (state_dict m1)) <> Raise RuntimeError ->
     load_state_dict m2 (state_dict m1) = (m1, Ok AllKeysMatched)) /\
    (forall key t2,
        lookup key (state_dict m2) = Some t2 ->
        lookup key (state_dict (fst (load_state_dict m2 (state_dict m1))))
        = Some match lookup key (state_dict m1) with
               | Some t1 => if shape_eqb (tshape t1) (tshape t2) then t1 else t2
               | None => t2
               end).
Proof.
  eexists. eexists.
  split; [reflexivity|]. split; [reflexivity|].
  apply (load_state_dict_mismatch ones zeros 2 1 2 1 [3%nat] [4%nat]);
    reflexivity.
Defined.

End CheckpointFacts.

(** ** The attention walkthrough: errors, edge cases and invariances *)

Module AttentionEdgeFacts.

Import Arrays ArraysFacts Attention AttentionFacts.
Open Scope R_scope.

Lemma dot_comm (u v : list R) : dot u v = dot v u.
Proof.
  revert v. induction u as [|a u IH]; intros [|b v]; try reflexivity.
  unfold dot. cbn [combine map fst snd]. rewrite !sum_list_cons.
  fold (dot u v). fold (dot v u). rewrite IH. ring.
Qed.

(** X1: [single_dot_attention_score] on two vectors returns their dot
    product, the same in either order of the arguments, when they have
    the same length, and raises ValueError when they do not. *)
Theorem single_dot_attention_score_symmetric (d e : list R) :
  (length d = length e ->
   single_dot_attention_score (Array1 d) (Array1 e) = Ok (Scalar (dot d e)) /\
   single_dot_attention_score (Array1 e) (Array1 d)
   = single_dot_attention_score (Array1 d) (Array1 e)) /\
  (length d <> length e ->
   single_dot_attention_score (Array1 d) (Array1 e) = Raise ValueError).
Proof.
  split.
  - intros H. rewrite !single_dot_attention_score_vectors by congruence.
    split; [reflexivity|]. rewrite dot_comm. reflexivity.
  - intros H. unfold single_dot_attention_score, np_dot, matmul.
    destruct (Nat.eqb_spec (length d) (length e)); [contradiction|reflexivity].
Qed.

(** X2: [dot_attention_score] on the column [d[:,None]] and a k x m
    annotation matrix returns exactly when k is the number of entries
    of d; with another number of rows it raises ValueError, also when d
    is handed over as a rank-1 array. *)
Theorem dot_attention_score_rows (d : list R) (A : list (list R)) (k m : nat) :
  d <> [] -> has_shape A k m ->
  (returns (dot_attention_score (newaxis_col d) (Array2 A))
   <-> k = length d) /\
  (k <> length d ->
   dot_attention_score (newaxis_col d) (Array2 A) = Raise ValueError /\
   dot_attention_score (Array1 d) (Array2 A) = Raise ValueError).
Proof.
  intros Hd [<- _]. unfold dot_attention_score.
  rewrite transpose_newaxis_col by exact Hd.
  unfold T, matmul, nrows. cbn [forallb]. rewrite andb_true_r.
  destruct (Nat.eqb_spec (length d) (length A)) as [E|E]; split.
  - split; [intros _; congruence|intros _; eexists; reflexivity].
  - intros H. congruence.
  - split; [intros [a Ha]; discriminate|intros H; congruence].
  - intros _. split; reflexivity.
Qed.

Lemma dot_attention_score_rows_witness :
  (returns (dot_attention_score (newaxis_col dec_hidden_state)
              (Array2 [[1; 2]; [3; 4]]))
   <-> 2%nat = length dec_hidden_state) /\
  (2%nat <> length dec_hidden_state ->
   dot_attention_score (newaxis_col dec_hidden_state)
     (Array2 [[1; 2]; [3; 4]]) = Raise ValueError /\
   dot_attention_score (Array1 dec_hidden_state)
     (Array2 [[1; 2]; [3; 4]]) = Raise ValueError).
Proof.
  apply (dot_attention_score_rows dec_hidden_state [[1; 2]; [3; 4]] 2 2).
  - discriminate.
  - split; [reflexivity|]. repeat constructor.
Defined.

Lemma sum_list_exp_shift (c : R) (s : list R) :
  sum_list (map exp (map (fun x => x + c) s)) = exp c * sum_list (map exp s).
Proof.
  induction s as [|a s IH]; cbn [map].
  - cbn. ring.
  - rewrite !sum_list_cons, IH, exp_plus. ring.
Qed.

(** X3: over the reals (exact arithmetic in place of float32), softmax
    does not change when the same constant is added to every score of
    the row. *)
Theorem softmax_shift_invariant (c : R) (s : list R) :
  softmax (Array2 [map (fun x => x + c) s]) = softmax (Array2 [s]).
Proof.
  rewrite !softmax_row. do 3 f_equal.
  rewrite map_map. apply map_ext_in. intros x Hx.
  assert (Hs : s <> []) by (intros ->; contradiction).
  pose proof (sum_list_exp_pos _ Hs) as Hpos.
  pose proof (exp_pos c) as Hc.
  rewrite sum_list_exp_shift, exp_plus. field. split; lra.
Qed.

Lemma nth_softmax_row (s : list R) (i : nat) :
  (i < length s)%nat ->
  nth i (map (fun x => exp x / sum_list (map exp s)) s) 0
  = exp (nth i s 0) / sum_list (map exp s).
Proof.
  intros Hi.
  rewrite (nth_indep _ 0 (exp 0 / sum_list (map exp s)))
    by (rewrite length_map; exact Hi).
  exact (map_nth (fun x => exp x / sum_list (map exp s)) s 0 i).
Qed.

(** X4: over the reals (exact arithmetic in place of float32), softmax
    keeps the order of the scores: of two positions of the row, the one
    with the greater score gets the greater weight, and equal scores get
    equal weights. *)
Theorem softmax_monotone (s : list R) :
  exists w,
    softmax (Array2 [s]) = Ok (Array2 [w]) /\
    length w = length s /\
    forall i j, (i < length s)%nat -> (j < length s)%nat ->
      (nth i s 0 < nth j s 0 <-> nth i w 0 < nth j w 0) /\
      (nth i s 0 = nth j s 0 <-> nth i w 0 = nth j w 0).
Proof.
  eexists. split; [apply softmax_row|]. split; [apply length_map|].
  intros i j Hi Hj. rewrite !nth_softmax_row by assumption.
  assert (Hs : s <> []) by (intros ->; cbn in Hi; lia).
  pose proof (sum_list_exp_pos _ Hs) as Hpos.
  set (S := sum_list (map exp s)) in *.
  assert (HS : 0 < / S) by (apply Rinv_0_lt_compat; exact Hpos).
  unfold Rdiv. split; split; intros H.
  - apply Rmult_lt_compat_r; [exact HS|]. apply exp_increasing. exact H.
  - apply exp_lt_inv. apply (Rmult_lt_reg_r (/ S)); assumption.
  - rewrite H. reflexivity.
  - apply exp_inv. apply (Rmult_eq_reg_r (/ S)); [exact H|lra].
Qed.

Lemma get2_map_exp (x : list (list R)) (n i j : nat) :
  has_shape x n n -> (i < n)%nat -> (j < n)%nat ->
  get2 (map (map exp) x) i j = exp (get2 x i j).
Proof.
  intros Hx Hi Hj. unfold get2.
  change (@nil R) with (map exp []) at 1. rewrite map_nth.
  rewrite (nth_indep _ 0 (exp 0))
    by (rewrite length_map, (has_shape_nth _ _ _ _ Hx Hi); exact Hj).
  apply map_nth.
Qed.

Lemma nth_row_sums (x : list (list R)) (j : nat) :
  nth j (map sum_list (map (map exp) x)) 0 = sum_list (map exp (nth j x [])).
Proof.
  rewrite map_map.
  exact (map_nth (fun row => sum_list (map exp row)) x [] j).
Qed.

Lemma ncols_map_exp (x : list (list R)) : ncols (map (map exp) x) = ncols x.
Proof. destruct x as [|row x]; [reflexivity|]. cbn. apply length_map. Qed.

(** X5: softmax is written for one row of scores.  On an array of r >= 2
    rows and c columns the division by [e_x.sum(axis=1)] broadcasts the
    r row sums along the columns: with c >= 2 and c <> r the call raises
    RuntimeError, and on a square array it returns without an error the
    array whose entry (i, j) is exp(x[i][j]) divided by the sum of the
    exponentials of row j, not of row i. *)
Theorem softmax_many_rows (x : list (list R)) (r c : nat) :
  has_shape x r c -> (2 <= r)%nat ->
  ((2 <= c)%nat -> c <> r -> softmax (Array2 x) = Raise RuntimeError) /\
  (c = r ->
   softmax (Array2 x)
   = Ok (Array2 (map (fun i =>
                   map (fun j => exp (get2 x i j)
                                 / sum_list (map exp (nth j x [])))
                       (seq 0 r))
                   (seq 0 r)))).
Proof.
  intros Hx Hr.
  assert (Hc : ncols x = c) by (apply (has_shape_ncols _ _ _ Hx); lia).
  assert (Hlen : length x = r) by (destruct Hx; assumption).
  unfold softmax, torch_FloatTensor.
  cbn [elementwise tensor_sum_axis1 bind].
  unfold broadcast, broadcast2, nrows. cbn [as2d ncols length].
  rewrite ncols_map_exp, !length_map, Hc, Hlen, bdim_1_r.
  split.
  - intros Hc2 Hne. unfold bdim.
    destruct (Nat.eqb_spec c r); [contradiction|].
    destruct (Nat.eqb_spec c 1); [lia|].
    destruct (Nat.eqb_spec r 1); [lia|]. reflexivity.
  - intros ->. rewrite bdim_refl.
    cbn [bind ndim shape length Nat.max of2d]. do 2 f_equal.
    apply map_seq_ext. intros i Hi. apply map_seq_ext. intros j Hj.
    rewrite (bidx_lt _ _ Hi), (bidx_lt _ _ Hj).
    rewrite (get2_map_exp _ _ _ _ Hx Hi Hj).
    unfold get2 at 2. cbn [bidx Nat.eqb nth]. rewrite nth_row_sums.
    reflexivity.
Qed.

Lemma softmax_many_rows_witness :
  ((2 <= 2)%nat -> 2%nat <> 2%nat ->
   softmax (Array2 [[0; 1]; [2; 3]]) = Raise RuntimeError) /\
  (2%nat = 2%nat ->
   softmax (Array2 [[0; 1]; [2; 3]])
   = Ok (Array2 (map (fun i =>
                   map (fun j =>
                          exp (get2 [[0; 1]; [2; 3]] i j)
                          / sum_list (map exp (nth j [[0; 1]; [2; 3]] [])))
                       (seq 0 2))
                   (seq 0 2)))).
Proof.
  apply (softmax_many_rows [[0; 1]; [2; 3]] 2 2).
  - split; [reflexivity|]. repeat constructor.
  - lia.
Defined.

(** X6: [apply_attention_scores] on a tensor with one row of weights
    and an n x m annotation matrix returns exactly when the row has m
    entries, or one entry, or the matrix has one column; otherwise it
    raises ValueError, the product being NumPy's.  A row of one weight
    is accepted without an error: the weight multiplies every entry of
    the matrix. *)
Theorem apply_attention_scores_broadcast (w : list R) (A : list (list R))
  (n m : nat) :
  (0 < n)%nat -> has_shape A n m ->
  (returns (apply_attention_scores (Torch (Array2 [w])) (Array2 A))
   <-> length w = m \/ length w = 1%nat \/ m = 1%nat) /\
  (~ (length w = m \/ length w = 1%nat \/ m = 1%nat) ->
   apply_attention_scores (Torch (Array2 [w])) (Array2 A)
   = Raise ValueError) /\
  (forall c, w = [c] ->
   apply_attention_scores (Torch (Array2 [w])) (Array2 A)
   = Ok (Torch (Array2 (map (map (fun a => c * a)) A)))).
Proof.
  intros Hn HA.
  assert (Hc : ncols A = m) by (apply (has_shape_ncols _ _ _ HA Hn)).
  assert (Hlen : length A = n) by (destruct HA; assumption).
  unfold apply_attention_scores, np_broadcast, broadcast, broadcast2, nrows.
  cbn [as2d ncols length]. rewrite Hc, Hlen, bdim_1_l.
  split; [|split].
  - unfold bdim.
    destruct (Nat.eqb_spec (length w) m) as [E1|E1];
      [split; [intros _; left; exact E1
              |intros _; eexists; reflexivity]|].
    destruct (Nat.eqb_spec (length w) 1) as [E2|E2];
      [split; [intros _; right; left; exact E2
              |intros _; eexists; reflexivity]|].
    destruct (Nat.eqb_spec m 1) as [E3|E3];
      [split; [intros _; right; right; exact E3
              |intros _; eexists; reflexivity]|].
    split; [intros [a Ha]; discriminate|intros [H|[H|H]]; contradiction].
  - intros H. unfold bdim.
    destruct (Nat.eqb_spec (length w) m) as [E1|E1]; [tauto|].
    destruct (Nat.eqb_spec (length w) 1) as [E2|E2]; [tauto|].
    destruct (Nat.eqb_spec m 1) as [E3|E3]; [tauto|]. reflexivity.
  - intros c ->. cbn [length]. rewrite bdim_1_l.
    cbn [bind ndim shape length Nat.max of2d]. do 3 f_equal.
    rewrite <- (map_nth_seq _ _ (map (fun a => c * a)) [] A), Hlen.
    apply map_seq_ext. intros k Hk.
    rewrite <- (map_nth_seq _ _ (fun a => c * a) 0 (nth k A [])).
    rewrite (has_shape_nth _ _ _ _ HA Hk).
    apply map_seq_ext. intros i Hi.
    rewrite (bidx_lt _ _ Hk), (bidx_lt _ _ Hi). reflexivity.
Qed.

Lemma apply_attention_scores_broadcast_witness :
  (returns (apply_attention_scores (Torch (Array2 [[2]]))
              (Array2 [[1; 2]; [3; 4]]))
   <-> length [2] = 2%nat \/ length [2] = 1%nat \/ 2%nat = 1%nat) /\
  (~ (length [2] = 2%nat \/ length [2] = 1%nat \/ 2%nat = 1%nat) ->
   apply_attention_scores (Torch (Array2 [[2]])) (Array2 [[1; 2]; [3; 4]])
   = Raise ValueError) /\
  (forall c, [2] = [c] ->
   apply_attention_scores (Torch (Array2 [[2]])) (Array2 [[1; 2]; [3; 4]])
   = Ok (Torch (Array2 (map (map (fun a => c * a)) [[1; 2]; [3; 4]])))).
Proof.
  apply (apply_attention_scores_broadcast [2] [[1; 2]; [3; 4]] 2 2).
  - lia.
  - split; [reflexivity|]. repeat constructor.
Defined.

Lemma dot_zeros_l (n : nat) (v : list R) : dot (repeat 0 n) v = 0.
Proof.
  revert v. induction n as [|n IH]; intros [|b v]; try reflexivity.
  unfold dot. cbn [repeat combine map fst snd]. rewrite sum_list_cons.
  fold (dot (repeat 0 n) v). rewrite IH. ring.
Qed.

Lemma sum_list_exp_zeros (m : nat) : sum_list (map exp (repeat 0 m)) = INR m.
Proof.
  induction m as [|m IH]; [reflexivity|].
  cbn [repeat map]. rewrite sum_list_cons, IH, S_INR, exp_0. ring.
Qed.

(** X8: over the reals, a decoder state whose entries are all zero
    scores every annotation of an n x m annotation matrix with 0,
    softmax gives every annotation the weight 1/m, and
    apply_attention_scores returns the tensor of the annotation matrix
    divided by m: no annotation gets more attention than another. *)
Theorem zero_state_uniform_attention (A : list (list R)) (n m : nat) :
  (0 < n)%nat -> (0 < m)%nat -> has_shape A n m ->
  dot_attention_score (newaxis_col (repeat 0 n)) (Array2 A)
  = Ok (Array2 [repeat 0 m]) /\
  softmax (Array2 [repeat 0 m]) = Ok (Array2 [repeat (/ INR m) m]) /\
  apply_attention_scores (Torch (Array2 [repeat (/ INR m) m])) (Array2 A)
  = Ok (Torch (Array2 (map (map (fun a => / INR m * a)) A))).
Proof.
  intros Hn Hm HA.
  assert (Hlen : length A = n) by (destruct HA; assumption).
  split; [|split].
  - rewrite (dot_attention_score_row _ A n m Hn (repeat_length _ _) HA).
    do 3 f_equal.
    rewrite (map_ext _ (fun _ => 0)) by (intros j; apply dot_zeros_l).
    rewrite map_const, length_seq. reflexivity.
  - rewrite softmax_row. do 3 f_equal.
    rewrite map_repeat, sum_list_exp_zeros, exp_0. f_equal.
    unfold Rdiv. ring.
  - unfold apply_attention_scores.
    rewrite (np_broadcast_row_mult _ A n m (repeat_length _ _) HA Hn).
    cbn [bind]. do 3 f_equal.
    rewrite <- (map_nth_seq _ _ (map (fun a => / INR m * a)) [] A), Hlen.
    apply map_seq_ext. intros k Hk.
    rewrite <- (map_nth_seq _ _ (fun a => / INR m * a) 0 (nth k A [])).
    rewrite (has_shape_nth _ _ _ _ HA Hk).
    apply map_seq_ext. intros i Hi.
    rewrite nth_repeat_lt by exact Hi. reflexivity.
Qed.

Lemma zero_state_uniform_attention_witness :
  dot_attention_score (newaxis_col (repeat 0 3))
    (Array2 [[3 / 10; 59 / 10; 1 / 10; 4 / 10];
             [12 / 10; 2 / 10; 43 / 10; 3 / 10];
             [45 / 10; 5 / 10; 5 / 10; 45.3 / 10]])
  = Ok (Array2 [repeat 0 4]) /\
  softmax (Array2 [repeat 0 4]) = Ok (Array2 [repeat (/ INR 4) 4]) /\
  apply_attention_scores (Torch (Array2 [repeat (/ INR 4) 4]))
    (Array2 [[3 / 10; 59 / 10; 1 / 10; 4 / 10];
             [12 / 10; 2 / 10; 43 / 10; 3 / 10];
             [45 / 10; 5 / 10; 5 / 10; 45.3 / 10]])
  = Ok (Torch (Array2 (map (map (fun a => / INR 4 * a))
                         [[3 / 10; 59 / 10; 1 / 10; 4 / 10];
                          [12 / 10; 2 / 10; 43 / 10; 3 / 10];
                          [45 / 10; 5 / 10; 5 / 10; 45.3 / 10]]))).
Proof.
  apply (zero_state_uniform_attention _ 3 4); [lia|lia|exact annotations_shape].
Defined.

End AttentionEdgeFacts.

(** ** Part 3: losses, predictions, autograd and the whole training run *)

Module TrainingCellsFacts.

Import Arrays ArraysFacts Training TrainingFacts TrainingCells.
Open Scope R_scope.

Lemma rows_length_forallb_iff (x : tensor2) (n : nat) :
  forallb (fun row => length row =? n) x = true
  <-> Forall (fun row => length row = n) x.
Proof.
  rewrite forallb_forall, Forall_forall.
  split; intros H row Hrow; apply Nat.eqb_eq, H, Hrow.
Qed.

Lemma logits_cross_entropy_unflattened (p : parameters) (images : tensor2) :
  ~ Forall (fun row => length row = 784%nat) images ->
  logits_cross_entropy p images = Raise RuntimeError.
Proof.
  intros H. unfold logits_cross_entropy, model_cross_entropy.
  cbn [forward layer_forward]. unfold linear_forward at 1.
  destruct (forallb _ images) eqn:E; [|reflexivity].
  apply rows_length_forallb_iff in E. contradiction.
Qed.

Lemma rows_width (images : tensor2) (b w : nat) :
  (0 < b)%nat -> has_shape images b w ->
  (Forall (fun row => length row = 784%nat) images <-> w = 784%nat).
Proof.
  intros Hb [Hlen Hw]. split.
  - intros H. destruct images as [|row images]; [cbn in Hlen; lia|].
    inversion H; inversion Hw; congruence.
  - intros ->. exact Hw.
Qed.

(** X9: the networks of the notebook accept a batch of b >= 1 images of
    w entries each exactly when w = 784, that is, when the images are
    flattened: then [model(images)] returns, and for any other width it
    raises RuntimeError, in the cell with CrossEntropyLoss as in the
    cells with LogSoftmax. *)
Theorem model_needs_flattened_images (p : parameters) (images : tensor2)
  (b w : nat) :
  wf_parameters p -> (0 < b)%nat -> has_shape images b w ->
  (returns (logits_cross_entropy p images) <-> w = 784%nat) /\
  (returns (logits_log_softmax p images) <-> w = 784%nat) /\
  (w <> 784%nat ->
   logits_cross_entropy p images = Raise RuntimeError /\
   logits_log_softmax p images = Raise RuntimeError).
Proof.
  intros Hp Hb Himg.
  pose proof (rows_width images b w Hb Himg) as Hw.
  assert (Hbad : w <> 784%nat ->
                 logits_cross_entropy p images = Raise RuntimeError /\
                 logits_log_softmax p images = Raise RuntimeError).
  { intros H. rewrite logits_log_softmax_eq.
    rewrite (logits_cross_entropy_unflattened p images);
      [split; reflexivity|].
    intros HF. apply H, Hw, HF. }
  split; [|split]; [| |exact Hbad].
  - split.
    + intros [a Ha]. destruct (Nat.eq_dec w 784) as [E|E]; [exact E|].
      destruct (Hbad E) as [E' _]. congruence.
    + intros H. apply Hw in H.
      destruct (logits_cross_entropy_shape p images Hp H) as [h [y [E _]]].
      exists y. exact E.
  - split.
    + intros [a Ha]. destruct (Nat.eq_dec w 784) as [E|E]; [exact E|].
      destruct (Hbad E) as [_ E']. congruence.
    + intros H. apply Hw in H.
      destruct (logits_cross_entropy_shape p images Hp H) as [h [y [E _]]].
      exists (log_softmax y). rewrite logits_log_softmax_eq, E. reflexivity.
Qed.

Lemma model_needs_flattened_images_witness :
  (returns (logits_cross_entropy zero_parameters [[0; 0]])
   <-> 2%nat = 784%nat) /\
  (returns (logits_log_softmax zero_parameters [[0; 0]])
   <-> 2%nat = 784%nat) /\
  (2%nat <> 784%nat ->
   logits_cross_entropy zero_parameters [[0; 0]] = Raise RuntimeError /\
   logits_log_softmax zero_parameters [[0; 0]] = Raise RuntimeError).
Proof.
  apply (model_needs_flattened_images zero_parameters [[0; 0]] 1 2).
  - exact wf_zero_parameters.
  - lia.
  - split; [reflexivity|]. repeat constructor.
Defined.










(** *** The whole run of the training loop *)

Section RunFacts.

Variable batch : Type.
Variable output : Type.
Variable model_fn : (nat -> R) -> batch -> output.
Variable criterion_fn : output -> batch -> R.
Variable loss_gradient : (nat -> R) -> batch -> nat -> R.

Lemma training_pass_sgd (st : state batch) (running_loss : R) (b : batch) :
  weights (fst (training_pass model_fn criterion_fn loss_gradient
                  (st, running_loss) b))
  = sgd_update loss_gradient (weights st) b /\
  snd (training_pass model_fn criterion_fn loss_gradient (st, running_loss) b)
  = running_loss + criterion_fn (model_fn (weights st) b) b.
Proof.
  destruct (training_pass_effect batch output model_fn criterion_fn
              loss_gradient st running_loss b) as [_ [Hl [Hw _]]].
  split; [|exact Hl].
  apply functional_extensionality. exact Hw.
Qed.

Lemma fold_training_pass_sgd (bs : list batch) (st : state batch)
  (running_loss : R) :
  weights (fst (fold_left (training_pass model_fn criterion_fn loss_gradient)
                  bs (st, running_loss)))
  = sgd loss_gradient bs (weights st) /\
  snd (fold_left (training_pass model_fn criterion_fn loss_gradient)
         bs (st, running_loss))
  = running_loss
    + sum_list (batch_losses model_fn criterion_fn loss_gradient
                  (weights st) bs).
Proof.
  revert st running_loss. induction bs as [|b bs IH]; intros st running_loss.
  - cbn. split; [reflexivity|ring].
  - cbn [fold_left batch_losses]. unfold sgd. cbn [fold_left].
    fold (sgd loss_gradient bs).
    destruct (training_pass_sgd st running_loss b) as [Hw Hl].
    destruct (training_pass model_fn criterion_fn loss_gradient
                (st, running_loss) b) as [st' rl'].
    cbn [fst snd] in Hw, Hl.
    destruct (IH st' rl') as [IHw IHl].
    rewrite IHw, IHl, Hw, Hl, sum_list_cons. split; [reflexivity|ring].
Qed.

Lemma epoch_sgd (bs : list batch) (st : state batch) (printed : list R) :
  weights (fst (epoch model_fn criterion_fn loss_gradient bs (st, printed)))
  = sgd loss_gradient bs (weights st) /\
  snd (epoch model_fn criterion_fn loss_gradient bs (st, printed))
  = printed
    ++ [sum_list (batch_losses model_fn criterion_fn loss_gradient
                    (weights st) bs)
        / INR (length bs)].
Proof.
  unfold epoch.
  destruct (fold_training_pass_sgd bs st 0) as [Hw Hl].
  destruct (fold_left _ bs (st, 0)) as [st' rl].
  cbn [fst snd] in *. rewrite Hw, Hl, Rplus_0_l. split; reflexivity.
Qed.

Lemma train_S (epochs : nat) (trainloader : nat -> list batch)
  (st : state batch) :
  train model_fn criterion_fn loss_gradient (S epochs) trainloader st
  = epoch model_fn criterion_fn loss_gradient (trainloader epochs)
      (train model_fn criterion_fn loss_gradient epochs trainloader st).
Proof.
  unfold train. rewrite seq_S, fold_left_app. reflexivity.
Qed.

Lemma sgd_app (bs1 bs2 : list batch) (w : nat -> R) :
  sgd loss_gradient (bs1 ++ bs2) w
  = sgd loss_gradient bs2 (sgd loss_gradient bs1 w).
Proof. apply fold_left_app. Qed.

(** X13: the training loop is plain stochastic gradient descent.  When
    every epoch has at least one batch, the parameters after the run
    are those reached by one SGD update per batch, over the batches of
    all epochs in the order the loader hands them out, whatever
    gradient the parameters held before; and the run prints one number
    per epoch: the mean over the batches of the epoch of the loss of
    each batch, taken at the parameters reached just before the update
    for that batch. *)
Theorem train_is_sgd (epochs : nat) (trainloader : nat -> list batch)
  (st : state batch) :
  (forall e, (e < epochs)%nat -> trainloader e <> []) ->
  weights (fst (train model_fn criterion_fn loss_gradient epochs
                  trainloader st))
  = sgd loss_gradient (concat (map trainloader (seq 0 epochs))) (weights st) /\
  snd (train model_fn criterion_fn loss_gradient epochs trainloader st)
  = map (fun e =>
           sum_list (batch_losses model_fn criterion_fn loss_gradient
                       (sgd loss_gradient
                            (concat (map trainloader (seq 0 e))) (weights st))
                       (trainloader e))
           / INR (length (trainloader e)))
        (seq 0 epochs).
Proof.
  intros _. induction epochs as [|n [IHw IHp]].
  - split; reflexivity.
  - rewrite train_S.
    destruct (train model_fn criterion_fn loss_gradient n trainloader st)
      as [st' printed].
    cbn [fst snd] in IHw, IHp.
    destruct (epoch_sgd (trainloader n) st' printed) as [Hw Hp].
    rewrite Hw, Hp, IHw, IHp.
    rewrite !seq_S, !map_app, concat_app, sgd_app. cbn [map concat Nat.add].
    rewrite app_nil_r. split; reflexivity.
Qed.

End RunFacts.

Lemma train_is_sgd_witness :
  weights
    (fst (train (fun (w : nat -> R) (b : R) => w 0%nat * b)
                (fun (o : R) (b : R) => o * o)
                (fun (w : nat -> R) (b : R) (i : nat) => 2 * w 0%nat * b * b)
                1 (fun _ => [1; 2])
                {| weights := fun _ => 1; grad := None; calls := [] |}))
  = sgd (fun (w : nat -> R) (b : R) (i : nat) => 2 * w 0%nat * b * b)
        (concat (map (fun _ => [1; 2]) (seq 0 1))) (fun _ => 1) /\
  snd (train (fun (w : nat -> R) (b : R) => w 0%nat * b)
             (fun (o : R) (b : R) => o * o)
             (fun (w : nat -> R) (b : R) (i : nat) => 2 * w 0%nat * b * b)
             1 (fun _ => [1; 2])
             {| weights := fun _ => 1; grad := None; calls := [] |})
  = map (fun e =>
           sum_list
             (batch_losses (fun (w : nat -> R) (b : R) => w 0%nat * b)
                (fun (o : R) (b : R) => o * o)
                (fun (w : nat -> R) (b : R) (i : nat) => 2 * w 0%nat * b * b)
                (sgd (fun (w : nat -> R) (b : R) (i : nat) =>
                        2 * w 0%nat * b * b)
                     (concat (map (fun _ => [1; 2]) (seq 0 e))) (fun _ => 1))
                ((fun _ : nat => [1; 2]) e))
           / INR (length ((fun _ : nat => [1; 2]) e)))
        (seq 0 1).
Proof.
  apply (train_is_sgd R R
           (fun (w : nat -> R) (b : R) => w 0%nat * b)
           (fun (o : R) (b : R) => o * o)
           (fun (w : nat -> R) (b : R) (i : nat) => 2 * w 0%nat * b * b)
           1 (fun _ => [1; 2])
           {| weights := fun _ => 1; grad := None; calls := [] |}).
  intros e _. discriminate.
Defined.

(** *** The autograd cells *)

Lemma length_set_nth (k : nat) (t : R) (x : list R) :
  length (set_nth k t x) = length x.
Proof.
  revert k. induction x as [|a x IH]; intros [|k]; cbn; try reflexivity.
  rewrite IH. reflexivity.
Qed.

Lemma sum_pow2_set_nth (k : nat) (t : R) (x : list R) :
  (k < length x)%nat ->
  sum_list (pow2 (set_nth k t x))
  = t ^ 2 + (sum_list (pow2 x) - nth k x 0 ^ 2).
Proof.
  revert k. unfold pow2.
  induction x as [|a x IH]; intros [|k] Hk; cbn [length] in Hk; try lia.
  - cbn [set_nth map nth]. rewrite !sum_list_cons. ring.
  - cbn [set_nth map nth]. rewrite !sum_list_cons, IH by lia. ring.
Qed.

Lemma z_set_nth (k : nat) (t : R) (x : list R) :
  (k < length x)%nat ->
  z (set_nth k t x)
  = (t ^ 2 + (sum_list (pow2 x) - nth k x 0 ^ 2)) / INR (length x).
Proof.
  intros Hk. unfold z, mean.
  rewrite sum_pow2_set_nth by exact Hk.
  unfold pow2. rewrite length_map, length_set_nth. reflexivity.
Qed.

Lemma derivable_pt_lim_square_mean (c n a : R) :
  derivable_pt_lim (fun t => (t ^ 2 + c) / n) a (2 * a / n).
Proof.
  apply (derivable_pt_lim_div_scal (fun t => t ^ 2 + c)).
  replace (2 * a) with (INR 2 * a ^ pred 2 + 0) by (cbn; ring).
  apply (derivable_pt_lim_plus (fun t => t ^ 2) (fct_cte c)).
  - apply derivable_pt_lim_pow.
  - apply derivable_pt_lim_const.
Qed.

Lemma z_gradient (x : list R) :
  is_gradient z x (map (fun t => 2 * t / INR (length x)) x).
Proof.
  split; [apply length_map|]. intros k Hk.
  rewrite (nth_indep (map (fun t => 2 * t / INR (length x)) x)
             0 (2 * 0 / INR (length x)))
    by (rewrite length_map; exact Hk).
  rewrite (map_nth (fun t => 2 * t / INR (length x)) x 0 k).
  apply (derivable_pt_lim_ext
           (fun t => (t ^ 2 + (sum_list (pow2 x) - nth k x 0 ^ 2))
                     / INR (length x))).
  - intros t. symmetry. apply z_set_nth. exact Hk.
  - apply derivable_pt_lim_square_mean.
Qed.

(** X14: for a tensor x of 2 x 2 = 4 entries, [y = x**2] and
    [z = y.mean()], the tensor [x/2] the cell prints is the gradient of
    z with respect to x; for a tensor of n >= 1 entries the gradient is
    2x/n. *)
Theorem z_backward_gradient (x : list R) :
  is_gradient z x (map (fun t => 2 * t / INR (length x)) x) /\
  (length x = 4%nat -> is_gradient z x (half x)).
Proof.
  split; [apply z_gradient|].
  intros H4. pose proof (z_gradient x) as Hg. rewrite H4 in Hg.
  unfold half.
  rewrite (map_ext (fun t => t / 2) (fun t => 2 * t / INR 4));
    [exact Hg|].
  intros t. cbn. field.
Qed.

End TrainingCellsFacts.

(** ** Part 6: state dicts, failed loads and files *)

Module CheckpointCellsFacts.

Import Checkpoint CheckpointFacts CheckpointCells.
Open Scope string_scope.
Open Scope list_scope.

Lemma hidden_weight_neq_bias (i j : nat) :
  weight_key (hidden_prefix i) <> bias_key (hidden_prefix j).
Proof.
  unfold weight_key, bias_key. intros E.
  apply hidden_key_inj in E. destruct E as [_ E]. discriminate.
Qed.

Lemma NoDup_keys_hidden_state (ls : list Linear) (i0 : nat) :
  NoDup (keys (hidden_state i0 ls)).
Proof.
  revert i0. induction ls as [|l ls IH]; intros i0; [constructor|].
  cbn [hidden_state linear_state app keys map fst].
  fold (keys (hidden_state (S i0) ls)).
  constructor; [|constructor; [|apply IH]].
  - intros [H|H].
    + symmetry in H. exact (hidden_weight_neq_bias _ _ H).
    + apply in_keys_hidden_state in H. destruct H as [j [Hj [H|H]]].
      * unfold weight_key in H. apply hidden_key_inj in H. lia.
      * exact (hidden_weight_neq_bias _ _ H).
  - intros H. apply in_keys_hidden_state in H. destruct H as [j [Hj [H|H]]].
    + symmetry in H. exact (hidden_weight_neq_bias _ _ H).
    + unfold bias_key in H. apply hidden_key_inj in H. lia.
Qed.

(** X15: the names of a state dict are pairwise distinct, and there are
    two of them (weight and bias) for every hidden layer and for the
    output layer. *)
Theorem state_dict_keys_distinct (m : Network) :
  NoDup (keys (state_dict m)) /\
  length (keys (state_dict m)) = (2 * length (hidden_layers m) + 2)%nat.
Proof.
  rewrite keys_state_dict. split.
  - apply NoDup_app; [apply NoDup_keys_hidden_state| |].
    + constructor; [|constructor; [intros []|constructor]].
      intros [H|[]]. unfold weight_key, bias_key, output_prefix in H.
      discriminate.
    + intros key Hk [<-|[<-|[]]];
        apply in_keys_hidden_state in Hk; destruct Hk as [j [_ [H|H]]];
        unfold weight_key, bias_key in H; symmetry in H;
        exact (hidden_key_not_output _ _ _ H).
  - rewrite length_app. unfold keys at 1.
    rewrite length_map, length_hidden_state. cbn [length]. lia.
Qed.

Lemma load_linear_own (sd : state_dict_t) (prefix : string) (l : Linear) :
  lookup (weight_key prefix) sd = Some (weight l) ->
  lookup (bias_key prefix) sd = Some (bias l) ->
  load_linear sd prefix l = (l, []).
Proof.
  intros Hw Hb. unfold load_linear.
  rewrite (load_tensor_found _ _ _ _ Hw eq_refl).
  rewrite (load_tensor_found _ _ _ _ Hb eq_refl).
  destruct l. reflexivity.
Qed.

Lemma load_hidden_own (ls : list Linear) (sd : state_dict_t) (i0 : nat) :
  (forall k l, nth_error ls k = Some l ->
     lookup (weight_key (hidden_prefix (i0 + k))) sd = Some (weight l) /\
     lookup (bias_key (hidden_prefix (i0 + k))) sd = Some (bias l)) ->
  load_hidden sd i0 ls = (ls, []).
Proof.
  revert i0. induction ls as [|l ls IH]; intros i0 H; [reflexivity|].
  cbn [load_hidden].
  destruct (H 0%nat l eq_refl) as [Hw Hb]. rewrite Nat.add_0_r in Hw, Hb.
  rewrite (load_linear_own _ _ _ Hw Hb), (IH (S i0)); [reflexivity|].
  intros k l' Hk. rewrite Nat.add_succ_comm. apply (H (S k) l' Hk).
Qed.

Lemma load_own_state_dict (m : Network) :
  load_state_dict m (state_dict m) = (m, Ok AllKeysMatched).
Proof.
  unfold load_state_dict, load_messages_and_model.
  rewrite (load_hidden_own (hidden_layers m) (state_dict m) 0).
  2:{ intros k l Hk. cbn [Nat.add].
      destruct (lookup_state_dict_hidden m k) as [Hw Hb].
      rewrite Hw, Hb, Hk. split; reflexivity. }
  destruct (lookup_state_dict_output m) as [Hw Hb].
  rewrite (load_linear_own _ _ _ Hw Hb).
  assert (Hu : unexpected_keys m (state_dict m) = []).
  { apply unexpected_keys_nil. intros key Hk. exact Hk. }
  rewrite Hu. destruct m. reflexivity.
Qed.

(** X16: the cells that save a state dict and load it again: for every
    network, [torch.save(model.state_dict(), 'checkpoint.pth')],
    [torch.load('checkpoint.pth')] and [model.load_state_dict] on the
    same model report that all keys matched and leave the model as it
    was, whatever the file held before. *)
Theorem state_dict_roundtrip (model : Network) (fs : filesystem) :
  reload_state_dict model (save_state_dict model fs)
  = (model, Ok AllKeysMatched).
Proof.
  unfold reload_state_dict, save_state_dict.
  rewrite torch_load_saved. apply load_own_state_dict.
Qed.

Lemma tshape_load_tensor (sd : state_dict_t) (key : string) (param : Tensor) :
  tshape (fst (load_tensor sd key param)) = tshape param.
Proof.
  rewrite load_tensor_fst. destruct (lookup key sd) as [t|]; [|reflexivity].
  destruct (shape_eqb (tshape t) (tshape param)) eqn:E; [|reflexivity].
  apply shape_eqb_eq. exact E.
Qed.

Lemma shapes_load_linear (sd : state_dict_t) (prefix prefix' : string)
  (l : Linear) :
  shapes (linear_state prefix' (fst (load_linear sd prefix l)))
  = shapes (linear_state prefix' l).
Proof.
  rewrite load_linear_fst. unfold linear_state, shapes.
  cbn [map fst snd weight bias]. rewrite !tshape_load_tensor. reflexivity.
Qed.

Lemma features_load_linear (sd : state_dict_t) (prefix : string) (l : Linear) :
  in_features (fst (load_linear sd prefix l)) = in_features l /\
  out_features (fst (load_linear sd prefix l)) = out_features l.
Proof. rewrite load_linear_fst. split; reflexivity. Qed.

Lemma load_hidden_cons (sd : state_dict_t) (i : nat) (l : Linear)
  (ls : list Linear) :
  fst (load_hidden sd i (l :: ls))
  = fst (load_linear sd (hidden_prefix i) l) :: fst (load_hidden sd (S i) ls).
Proof.
  cbn [load_hidden].
  destruct (load_linear sd (hidden_prefix i) l).
  destruct (load_hidden sd (S i) ls). reflexivity.
Qed.

Lemma shapes_load_hidden (sd : state_dict_t) (ls : list Linear) (i0 : nat) :
  shapes (hidden_state i0 (fst (load_hidden sd i0 ls)))
  = shapes (hidden_state i0 ls) /\
  map in_features (fst (load_hidden sd i0 ls)) = map in_features ls /\
  map out_features (fst (load_hidden sd i0 ls)) = map out_features ls.
Proof.
  revert i0. induction ls as [|l ls IH]; intros i0.
  - repeat split.
  - rewrite load_hidden_cons. cbn [hidden_state map].
    destruct (IH (S i0)) as [IH1 [IH2 IH3]].
    destruct (features_load_linear sd (hidden_prefix i0) l) as [Hi Ho].
    unfold shapes in *. rewrite !map_app.
    fold (shapes (linear_state (hidden_prefix i0)
                    (fst (load_linear sd (hidden_prefix i0) l)))).
    rewrite shapes_load_linear, IH1, IH2, IH3, Hi, Ho.
    repeat split.
Qed.

(** X17: [load_state_dict] never changes the architecture of the model
    it is called on, whether it succeeds or raises: afterwards every
    parameter has the shape it had before, the layers have the sizes
    they had, and the checkpoint cell records the same hidden layer
    sizes. *)
Theorem load_state_dict_keeps_shapes (m : Network) (sd : state_dict_t) :
  let m' := fst (load_state_dict m sd) in
  shapes (state_dict m') = shapes (state_dict m) /\
  map in_features (hidden_layers m') = map in_features (hidden_layers m) /\
  map out_features (hidden_layers m') = map out_features (hidden_layers m) /\
  in_features (output m') = in_features (output m) /\
  out_features (output m') = out_features (output m) /\
  ck_hidden_layers (checkpoint m') = ck_hidden_layers (checkpoint m).
Proof.
  cbn zeta. rewrite load_state_dict_fst.
  unfold checkpoint, state_dict. cbn [hidden_layers output ck_hidden_layers].
  destruct (shapes_load_hidden sd (hidden_layers m) 0) as [H1 [H2 H3]].
  destruct (features_load_linear sd output_prefix (output m)) as [Hi Ho].
  unfold shapes in *. rewrite !map_app.
  fold (shapes (linear_state output_prefix
                  (fst (load_linear sd output_prefix (output m))))).
  rewrite shapes_load_linear, H1, H2, H3, Hi, Ho.
  repeat split.
Qed.

Lemma load_tensor_twice (sd : state_dict_t) (key : string) (param : Tensor) :
  load_tensor sd key (fst (load_tensor sd key param))
  = load_tensor sd key param.
Proof.
  unfold load_tensor. destruct (lookup key sd) as [t|]; [|reflexivity].
  destruct (shape_eqb (tshape t) (tshape param)) eqn:E; cbn [fst].
  - cbn [copy_ tshape]. rewrite E. reflexivity.
  - rewrite E. reflexivity.
Qed.

Lemma load_linear_twice (sd : state_dict_t) (prefix : string) (l : Linear) :
  load_linear sd prefix (fst (load_linear sd prefix l))
  = load_linear sd prefix l.
Proof.
  rewrite (load_linear_fst sd prefix l). unfold load_linear.
  cbn [weight bias in_features out_features].
  rewrite !load_tensor_twice.
  destruct (load_tensor sd (weight_key prefix) (weight l)).
  destruct (load_tensor sd (bias_key prefix) (bias l)). reflexivity.
Qed.

Lemma load_hidden_twice (sd : state_dict_t) (ls : list Linear) (i0 : nat) :
  load_hidden sd i0 (fst (load_hidden sd i0 ls)) = load_hidden sd i0 ls.
Proof.
  revert i0. induction ls as [|l ls IH]; intros i0; [reflexivity|].
  rewrite load_hidden_cons. cbn [load_hidden].
  rewrite load_linear_twice, IH. reflexivity.
Qed.

Lemma length_load_hidden (sd : state_dict_t) (ls : list Linear) (i0 : nat) :
  length (fst (load_hidden sd i0 ls)) = length ls.
Proof.
  revert i0. induction ls as [|l ls IH]; intros i0; [reflexivity|].
  rewrite load_hidden_cons. cbn [length]. rewrite IH. reflexivity.
Qed.

(** X18: [load_state_dict] is idempotent: a second call with the same
    state dict has the outcome of the first (all keys matched, or the
    same RuntimeError) and leaves the model as the first call left it. *)
Theorem load_state_dict_idempotent (m : Network) (sd : state_dict_t) :
  load_state_dict (fst (load_state_dict m sd)) sd = load_state_dict m sd.
Proof.
  assert (Hu : unexpected_keys (fst (load_state_dict m sd)) sd
               = unexpected_keys m sd).
  { unfold unexpected_keys.
    rewrite (keys_same_length (fst (load_state_dict m sd)) m); [reflexivity|].
    rewrite load_state_dict_fst. cbn [hidden_layers].
    apply length_load_hidden. }
  unfold load_state_dict at 1. unfold load_messages_and_model at 1.
  rewrite Hu. rewrite load_state_dict_fst. cbn [hidden_layers output dropout].
  rewrite load_hidden_twice, load_linear_twice. reflexivity.
Qed.

(** X20: the checkpoint cell writes the sizes 784 and 10 whatever the
    model is: for every network built with another input or output
    size, [load_checkpoint] on its saved checkpoint raises RuntimeError
    and returns no model. *)
Theorem load_checkpoint_other_sizes (init init' : initializer) (a b : nat)
  (hs : list nat) (model : Network) (path : string) (fs : filesystem) :
  new_Network init a b hs = Ok model ->
  (a, b) <> (784, 10)%nat ->
  load_checkpoint init' path
    (torch_save (PyCheckpoint (checkpoint model)) path fs)
  = Raise RuntimeError.
Proof.
  intros Hm Hab. unfold load_checkpoint.
  rewrite torch_load_saved. cbn [bind].
  unfold checkpoint.
  cbn [input_size output_size ck_hidden_layers ck_state_dict].
  destruct (new_Network_inv _ _ _ _ _ Hm) as [Hhs [Hh _]].
  rewrite Hh, out_features_new_hidden.
  destruct (new_Network init' 784 10 hs) as [m'|e] eqn:Hm'.
  - cbn [bind].
    assert (Hr : snd (load_state_dict m' (state_dict model))
                 = Raise RuntimeError).
    { apply (load_raises_iff_sizes_differ init init' a b 784 10 hs hs
               model m' Hm Hm').
      intros E. apply Hab. congruence. }
    destruct (load_state_dict m' (state_dict model)) as [m'' outcome].
    cbn [snd] in Hr. rewrite Hr. reflexivity.
  - unfold new_Network in Hm'. destruct hs; [congruence|discriminate].
Qed.

Lemma load_checkpoint_other_sizes_witness :
  exists model,
    new_Network zeros 784 12 [3%nat] = Ok model /\
    load_checkpoint ones "checkpoint.pth"
      (torch_save (PyCheckpoint (checkpoint model)) "checkpoint.pth" [])
    = Raise RuntimeError.
Proof.
  eexists. split; [reflexivity|].
  apply (load_checkpoint_other_sizes zeros ones 784 12 [3%nat] _
           "checkpoint.pth" [] eq_refl).
  intros E. discriminate E.
Defined.

(** *** A checkpoint of a model that went through [load_state_dict] *)

Lemma same_linear_refl (l : Linear) : same_linear l l.
Proof. repeat split. Qed.

Lemma Forall2_same_linear_refl (ls : list Linear) : Forall2 same_linear ls ls.
Proof. induction ls; constructor; [apply same_linear_refl|assumption]. Qed.

Lemma load_linear_same (sd : state_dict_t) (prefix : string) (l l' : Linear) :
  same_linear l l' ->
  lookup (weight_key prefix) sd = Some (weight l) ->
  lookup (bias_key prefix) sd = Some (bias l) ->
  load_linear sd prefix l' = (l, []).
Proof.
  intros [Hi [Ho [Hw Hb]]] Lw Lb. unfold load_linear.
  rewrite (load_tensor_found _ _ _ _ Lw Hw).
  rewrite (load_tensor_found _ _ _ _ Lb Hb).
  rewrite <- Hi, <- Ho. destruct l. reflexivity.
Qed.

Lemma load_hidden_same (ls ls' : list Linear) (sd : state_dict_t) (i0 : nat) :
  Forall2 same_linear ls ls' ->
  (forall k l, nth_error ls k = Some l ->
     lookup (weight_key (hidden_prefix (i0 + k))) sd = Some (weight l) /\
     lookup (bias_key (hidden_prefix (i0 + k))) sd = Some (bias l)) ->
  load_hidden sd i0 ls' = (ls, []).
Proof.
  intros HF. revert i0.
  induction HF as [|l l' ls ls' Hl HF IH]; intros i0 H; [reflexivity|].
  cbn [load_hidden].
  destruct (H 0%nat l eq_refl) as [Hw Hb]. rewrite Nat.add_0_r in Hw, Hb.
  rewrite (load_linear_same _ _ _ _ Hl Hw Hb), (IH (S i0)); [reflexivity|].
  intros k l0 Hk. rewrite Nat.add_succ_comm. apply (H (S k) l0 Hk).
Qed.

Lemma Forall2_length_eq (A B : Type) (P : A -> B -> Prop)
  (l : list A) (l' : list B) :
  Forall2 P l l' -> length l = length l'.
Proof. induction 1; cbn; congruence. Qed.

(** A state dict is accepted by every model of the architecture of the
    model it came from, which becomes that model. *)
Lemma load_same_architecture_general (m m' : Network) :
  same_architecture m m' ->
  load_state_dict m' (state_dict m) = (m, Ok AllKeysMatched).
Proof.
  intros [Hh [Ho Hd]].
  unfold load_state_dict, load_messages_and_model.
  rewrite (load_hidden_same (hidden_layers m) _ (state_dict m) 0 Hh).
  2:{ intros k l Hk. cbn [Nat.add].
      destruct (lookup_state_dict_hidden m k) as [Hw Hb].
      rewrite Hw, Hb, Hk. split; reflexivity. }
  destruct (lookup_state_dict_output m) as [Hw Hb].
  rewrite (load_linear_same _ _ _ _ Ho Hw Hb).
  assert (Hu : unexpected_keys m' (state_dict m) = []).
  { apply unexpected_keys_nil. intros key Hk.
    rewrite (keys_same_length m' m); [exact Hk|].
    symmetry. apply (Forall2_length_eq _ _ _ _ _ Hh). }
  rewrite Hu, <- Hd. destruct m. reflexivity.
Qed.

Lemma same_linear_load_linear (sd : state_dict_t) (prefix : string)
  (l l' : Linear) :
  same_linear l l' -> same_linear (fst (load_linear sd prefix l)) l'.
Proof.
  intros [Hi [Ho [Hw Hb]]]. rewrite load_linear_fst.
  unfold same_linear. cbn [in_features out_features weight bias].
  rewrite !tshape_load_tensor. repeat split; assumption.
Qed.

Lemma same_linear_load_hidden (sd : state_dict_t) (ls ls' : list Linear)
  (i0 : nat) :
  Forall2 same_linear ls ls' ->
  Forall2 same_linear (fst (load_hidden sd i0 ls)) ls'.
Proof.
  intros HF. revert i0.
  induction HF as [|l l' ls ls' Hl HF IH]; intros i0; [constructor|].
  rewrite load_hidden_cons. constructor; [|apply IH].
  apply same_linear_load_linear. exact Hl.
Qed.

Lemma same_linear_new_hidden (hs : list nat) (init init' : initializer)
  (i0 a : nat) :
  Forall2 same_linear (new_hidden init i0 a hs) (new_hidden init' i0 a hs).
Proof.
  revert i0 a. induction hs as [|h hs IH]; intros i0 a; [constructor|].
  cbn [new_hidden]. constructor; [|apply IH]. repeat split.
Qed.

Lemma same_architecture_new_Network (init init' : initializer) (a b : nat)
  (hs : list nat) (m m' : Network) :
  new_Network init a b hs = Ok m ->
  new_Network init' a b hs = Ok m' ->
  same_architecture m m'.
Proof.
  intros Hm Hm'.
  destruct (new_Network_inv _ _ _ _ _ Hm) as [_ [Hh [Ho Hd]]].
  destruct (new_Network_inv _ _ _ _ _ Hm') as [_ [Hh' [Ho' Hd']]].
  unfold same_architecture. rewrite Hh, Hh', Ho, Ho', Hd, Hd'.
  split; [apply same_linear_new_hidden|]. split; [|reflexivity].
  repeat split.
Qed.

Lemma same_linear_trans (l1 l2 l3 : Linear) :
  same_linear l1 l2 -> same_linear l2 l3 -> same_linear l1 l3.
Proof.
  intros [H1 [H2 [H3 H4]]] [G1 [G2 [G3 G4]]].
  repeat split; congruence.
Qed.

Lemma same_architecture_trans (m1 m2 m3 : Network) :
  same_architecture m1 m2 -> same_architecture m2 m3 ->
  same_architecture m1 m3.
Proof.
  intros [H1 [H2 H3]] [G1 [G2 G3]]. split; [|split].
  - revert G1. generalize (hidden_layers m3).
    induction H1 as [|x y l1 l2 Hxy H IH]; intros l3 G; inversion G; subst;
      constructor; [|apply IH; assumption].
    apply (same_linear_trans x y); assumption.
  - apply (same_linear_trans _ (output m2)); assumption.
  - congruence.
Qed.

Lemma same_architecture_load_state_dict (m : Network) (sd : state_dict_t) :
  map out_features (hidden_layers (fst (load_state_dict m sd)))
  = map out_features (hidden_layers m) /\
  same_architecture (fst (load_state_dict m sd)) m.
Proof.
  rewrite load_state_dict_fst. unfold same_architecture.
  cbn [hidden_layers output dropout].
  split; [apply shapes_load_hidden|].
  split; [apply same_linear_load_hidden, Forall2_same_linear_refl|].
  split; [apply same_linear_load_linear, same_linear_refl|reflexivity].
Qed.

(** X21: the checkpoint round trip also holds for a model that went
    through [load_state_dict], as the model of the notebook did when
    the checkpoint cell ran (after the call that raised): for a network
    built with input size 784 and output size 10 and for every state
    dict, if [model] is that network after [load_state_dict], whether
    the call succeeded or raised, then [load_checkpoint] on the saved
    checkpoint of [model] returns [model], with the parameters the call
    overwrote and those it left. *)
Theorem checkpoint_roundtrip_after_load (init init' : initializer)
  (hs : list nat) (m : Network) (sd : state_dict_t) (path : string)
  (fs : filesystem) :
  new_Network init 784 10 hs = Ok m ->
  let model := fst (load_state_dict m sd) in
  load_checkpoint init' path
    (torch_save (PyCheckpoint (checkpoint model)) path fs)
  = Ok model.
Proof.
  intros Hm model. unfold load_checkpoint.
  rewrite torch_load_saved. cbn [bind].
  unfold checkpoint.
  cbn [input_size output_size ck_hidden_layers ck_state_dict].
  destruct (same_architecture_load_state_dict m sd) as [Hout Harch].
  fold model in Hout, Harch.
  destruct (new_Network_inv _ _ _ _ _ Hm) as [Hhs [Hh _]].
  rewrite Hout, Hh, out_features_new_hidden.
  destruct (new_Network init' 784 10 hs) as [m'|e] eqn:Hm'.
  - cbn [bind].
    rewrite (load_same_architecture_general model m'); [reflexivity|].
    apply (same_architecture_trans _ m); [exact Harch|].
    apply (same_architecture_new_Network _ _ _ _ _ _ _ Hm Hm').
  - unfold new_Network in Hm'. destruct hs; [congruence|discriminate].
Qed.

Lemma checkpoint_roundtrip_after_load_witness :
  exists m1 m2,
    new_Network ones 784 10 [3%nat] = Ok m1 /\
    new_Network zeros 784 10 [2%nat] = Ok m2 /\
    snd (load_state_dict m2 (state_dict m1)) = Raise RuntimeError /\
    let model := fst (load_state_dict m2 (state_dict m1)) in
    load_checkpoint ones "checkpoint.pth"
      (torch_save (PyCheckpoint (checkpoint model)) "checkpoint.pth" [])
    = Ok model.
Proof.
  eexists. eexists. split; [reflexivity|]. split; [reflexivity|].
  split; [reflexivity|].
  apply (checkpoint_roundtrip_after_load zeros ones [2%nat] _ _
           "checkpoint.pth" [] eq_refl).
Defined.

End CheckpointCellsFacts.
